(** * linkedin-processor-n8n: the profile normalizer of [server.js]

    A shallow embedding of [processProfile] (server.js, lines 38-364) and of
    the ECMAScript built-ins it calls, followed by the properties of the
    normalizer that the design document states.

    Conventions of the embedding.
    - A JavaScript string is the list of its UTF-16 code units.
    - A JavaScript number is [NaN] or an exact rational: the time values
      and the rounded results are integers, and the rounding error of
      double precision in the two quotients is not modelled.
    - A property of the input is typed as the design document types it,
      and is an [option]: [None] is the absent property ([undefined]).  A
      property set to [null] passes every test of the normalizer as an
      absent one does and differs only when it is converted to a string.
    - An element of [skills] or of [languages] is an object or [null], as
      the guards of lines 60 and 69 expect; so is an item of the body of a
      request.  The elements of the other arrays are objects.
    - A [Date] is its time value.  Time values are local-time milliseconds;
      the host's zone is taken to have a fixed offset, so differences of
      time values are differences of instants.
    - [new Date()] reads the wall clock; the clock is a sequence of readings
      and the loop over the positions counts the readings it has made. *)

From Stdlib Require Import ZArith QArith Qround Lia List.
From stdpp Require Import base decidable option list strings.
Import ListNotations.

Local Open Scope Z_scope.

(** ** Strings *)

Module JSString.

(** A string value: the sequence of its UTF-16 code units. *)
Definition t := list N.

(** The code units of an ASCII literal. *)
Definition lit (s : string) : t :=
  map (fun a => Ascii.N_of_ascii a) (String.list_ascii_of_string s).

Definition eqb (a b : t) : bool := bool_decide (a = b).

(** [String.prototype.includes]: [needle] occurs in [s] at some index. *)
Fixpoint startsWith (needle s : t) : bool :=
  match needle, s with
  | [], _ => true
  | _ :: _, [] => false
  | a :: needle', b :: s' => (a =? b)%N && startsWith needle' s'
  end.

Fixpoint includes (s needle : t) : bool :=
  startsWith needle s ||
  match s with
  | [] => false
  | _ :: s' => includes s' needle
  end.

(** [String.prototype.toLowerCase] on the Basic Latin and Latin-1
    Supplement blocks: A-Z, the letters from A-grave to O-diaeresis and
    from O-stroke to Thorn move 32 code units up.  Code units of other
    blocks are left as they are. *)
Definition lowerUnit (c : N) : N :=
  if ((65 <=? c) && (c <=? 90))%N then (c + 32)%N
  else if ((192 <=? c) && (c <=? 214))%N then (c + 32)%N
  else if ((216 <=? c) && (c <=? 222))%N then (c + 32)%N
  else c.

Definition toLowerCase (s : t) : t := map lowerUnit s.

(** The class [\s] of a regular expression: WhiteSpace and
    LineTerminator code points. *)
Definition isWhiteSpace (c : N) : bool :=
  (((9 <=? c) && (c <=? 13)) || (c =? 32) || (c =? 160) || (c =? 5760)
   || ((8192 <=? c) && (c <=? 8202)) || (c =? 8232) || (c =? 8233)
   || (c =? 8239) || (c =? 8287) || (c =? 12288) || (c =? 65279))%N.

(** [s.split(/\s+/)]: the pieces between maximal runs of white space; a
    run at either end of the string leaves an empty piece there.  [cur]
    holds the piece being read, reversed; [inRun] tells that the previous
    code unit was white space. *)
Fixpoint splitAux (cur : t) (inRun : bool) (s : t) : list t :=
  match s with
  | [] => [rev cur]
  | c :: s' =>
      if isWhiteSpace c
      then (if inRun then splitAux [] true s'
            else rev cur :: splitAux [] true s')
      else splitAux (c :: cur) false s'
  end.

Definition split_ws (s : t) : list t := splitAux [] false s.

(** [Array.prototype.join]. *)
Fixpoint join (sep : t) (parts : list t) : t :=
  match parts with
  | [] => []
  | [p] => p
  | p :: rest => p ++ sep ++ join sep rest
  end.

(** The decimal digits of a natural number, then [Number::toString] of
    an integer. *)
Fixpoint digitsAux (fuel : nat) (n : N) (acc : t) : t :=
  match fuel with
  | O => acc
  | S fuel' =>
      let acc' := (48 + n mod 10)%N :: acc in
      if (n <? 10)%N then acc' else digitsAux fuel' (n / 10)%N acc'
  end.

Definition ofN (n : N) : t := digitsAux (S (N.to_nat (N.log2 n))) n [].

Definition ofZ (z : Z) : t :=
  if z <? 0 then 45%N :: ofN (Z.to_N (- z)) else ofN (Z.to_N z).

End JSString.

Abbreviation jsstring := JSString.t.
Notation "'js' s" := (JSString.lit s) (at level 1, s at level 0, format "'js' s").

(** ** Numbers *)

(** A Number value: [NaN] or a rational. *)
Inductive number := NaN | Num (q : Q).

Module JSMath.

Definition ofZ (z : Z) : number := Num (inject_Z z).

(** [a - b]. *)
Definition sub (a b : number) : number :=
  match a, b with
  | Num x, Num y => Num (x - y)
  | _, _ => NaN
  end.

(** [a / d] for a non-zero constant [d]. *)
Definition divc (a : number) (d : Q) : number :=
  match a with
  | Num x => Num (x / d)
  | NaN => NaN
  end.

(** [Math.max(0, a)]. *)
Definition max0 (a : number) : number :=
  match a with
  | Num x => if Qle_bool x 0 then Num 0 else Num x
  | NaN => NaN
  end.

(** [Math.round(a)]: the nearest integer, a tie going up. *)
Definition round (a : number) : number :=
  match a with
  | Num x => ofZ (Qfloor (x + (1 # 2)))
  | NaN => NaN
  end.

(** [a >= k], [a < b]: false as soon as an operand is [NaN]. *)
Definition geb (a : number) (k : Q) : bool :=
  match a with
  | Num x => Qle_bool k x
  | NaN => false
  end.

Definition ltb (a b : number) : bool :=
  match a, b with
  | Num x, Num y => negb (Qle_bool y x)
  | _, _ => false
  end.

(** Truthiness of a number: neither [NaN] nor zero. *)
Definition truthy (a : number) : bool :=
  match a with
  | Num x => negb (Qeq_bool x 0)
  | NaN => false
  end.

End JSMath.

(** ** Dates *)

Module JSDate.

(** The [[DateValue]] of a Date object. *)
Inductive t := Invalid | Time (tv : Z).

Definition valueOf (d : t) : number :=
  match d with
  | Invalid => NaN
  | Time tv => JSMath.ofZ tv
  end.

Definition msPerDay : Z := 86400000.

Definition DayFromYear (y : Z) : Z :=
  365 * (y - 1970) + (y - 1969) / 4 - (y - 1901) / 100 + (y - 1601) / 400.

Definition InLeapYear (y : Z) : bool :=
  (y mod 4 =? 0) && (negb (y mod 100 =? 0) || (y mod 400 =? 0)).

(** The day within the year on which month [m] (0 to 11) starts. *)
Definition monthStart (leap : bool) (m : Z) : Z :=
  let l := if leap then 1 else 0 in
  match m with
  | 0 => 0 | 1 => 31 | 2 => 59 + l | 3 => 90 + l | 4 => 120 + l
  | 5 => 151 + l | 6 => 181 + l | 7 => 212 + l | 8 => 243 + l
  | 9 => 273 + l | 10 => 304 + l | _ => 334 + l
  end.

(** [MakeDay(year, month, date)]: the month is carried into the year, the
    date is counted from the first of that month. *)
Definition MakeDay (year month date : Z) : Z :=
  let ym := year + month / 12 in
  let mn := month mod 12 in
  DayFromYear ym + monthStart (InLeapYear ym) mn + date - 1.

Definition TimeClip (tv : Z) : t :=
  if Z.abs tv <=? 8640000000000000 then Time tv else Invalid.

(** [new Date(year, month, day)]: a year from 0 to 99 is read as a year
    of the twentieth century; the time within the day is 0. *)
Definition make (year month day : Z) : t :=
  let yr := if (0 <=? year) && (year <=? 99) then 1900 + year else year in
  TimeClip (MakeDay yr month day * msPerDay).

Definition Day (tv : Z) : Z := tv / msPerDay.

(** [YearFromTime]: the year [y] with
    [DayFromYear y <= Day tv < DayFromYear (y + 1)], looked for next to
    the estimate that the mean length of a year gives. *)
Definition YearFromTime (tv : Z) : Z :=
  let d := Day tv in
  let y0 := 1970 + (d * 10000) / 3652425 in
  if DayFromYear y0 <=? d
  then (if d <? DayFromYear (y0 + 1) then y0 else y0 + 1)
  else y0 - 1.

Definition MonthFromTime (tv : Z) : Z :=
  let y := YearFromTime tv in
  let l := if InLeapYear y then 1 else 0 in
  let dwy := Day tv - DayFromYear y in
  if dwy <? 31 then 0
  else if dwy <? 59 + l then 1
  else if dwy <? 90 + l then 2
  else if dwy <? 120 + l then 3
  else if dwy <? 151 + l then 4
  else if dwy <? 181 + l then 5
  else if dwy <? 212 + l then 6
  else if dwy <? 243 + l then 7
  else if dwy <? 273 + l then 8
  else if dwy <? 304 + l then 9
  else if dwy <? 334 + l then 10
  else 11.

Definition DateFromTime (tv : Z) : Z :=
  let y := YearFromTime tv in
  Day tv - DayFromYear y - monthStart (InLeapYear y) (MonthFromTime tv) + 1.

Definition monthShort (m : Z) : jsstring :=
  match m with
  | 0 => js"Jan" | 1 => js"Feb" | 2 => js"Mar" | 3 => js"Apr"
  | 4 => js"May" | 5 => js"Jun" | 6 => js"Jul" | 7 => js"Aug"
  | 8 => js"Sep" | 9 => js"Oct" | 10 => js"Nov" | _ => js"Dec"
  end.

(** [d.toLocaleDateString('en-US', { year: 'numeric', month: 'short' })]:
    the short month name, a space, the year of the era. *)
Definition toLocaleDateString (d : t) : jsstring :=
  match d with
  | Invalid => js"Invalid Date"
  | Time tv =>
      let y := YearFromTime tv in
      monthShort (MonthFromTime tv) ++ js" "
        ++ JSString.ofZ (if 0 <? y then y else 1 - y)
  end.

(** [a < b] on Date objects compares their time values. *)
Definition ltb (a b : t) : bool := JSMath.ltb (valueOf a) (valueOf b).

End JSDate.

Abbreviation Date := JSDate.t.

(** ** Exceptions *)

Inductive exn := TypeError | URIError.

Inductive completion (A : Type) :=
| Return (a : A)
| Throw (e : exn).
Arguments Return {A} a.
Arguments Throw {A} e.

Definition bind {A B} (c : completion A) (k : A -> completion B) : completion B :=
  match c with
  | Return a => k a
  | Throw e => Throw e
  end.

Notation "'let!' x ':=' c 'in' k" := (bind c (fun x => k))
  (at level 10, x name, c at level 100, k at level 200).

(** ** [decodeURI] *)

Module URI.

(** A code unit of the input, or an escape [%XX] with the octet it
    denotes and the two code units that spell it. *)
Inductive token :=
| Unit (c : N)
| Octet (b : N) (h1 h2 : N).

Definition hexDigit (c : N) : option N :=
  if ((48 <=? c) && (c <=? 57))%N then Some (c - 48)%N
  else if ((65 <=? c) && (c <=? 70))%N then Some (c - 55)%N
  else if ((97 <=? c) && (c <=? 102))%N then Some (c - 87)%N
  else None.

(** Reading the escapes: a [%] that is not followed by two hexadecimal
    digits is an error. *)
Fixpoint tokens (s : jsstring) : option (list token) :=
  match s with
  | [] => Some []
  | c :: rest =>
      if (c =? 37)%N then
        match rest with
        | h1 :: h2 :: rest' =>
            match hexDigit h1, hexDigit h2, tokens rest' with
            | Some a, Some b, Some ts => Some (Octet (16 * a + b) h1 h2 :: ts)
            | _, _, _ => None
            end
        | _ => None
        end
      else
        match tokens rest with
        | Some ts => Some (Unit c :: ts)
        | None => None
        end
  end.

(** The code units [decodeURI] never unescapes: [;/?:@&=+$,#]. *)
Definition preserved (b : N) : bool :=
  existsb (N.eqb b) (js";/?:@&=+$,#").

Definition continuation (t : token) : option N :=
  match t with
  | Octet b _ _ => if ((128 <=? b) && (b <=? 191))%N then Some (b - 128)%N else None
  | Unit _ => None
  end.

(** A code point that [n] octets encode, or nothing when the encoding is
    overlong, a surrogate or beyond U+10FFFF. *)
Definition scalar (least v : N) : option N :=
  if ((least <=? v) && (v <=? 1114111) && negb ((55296 <=? v) && (v <=? 57343)))%N
  then Some v else None.

Definition utf16 (v : N) : jsstring :=
  if (v <? 65536)%N then [v]
  else [(55296 + (v - 65536) / 1024)%N; (56320 + (v - 65536) mod 1024)%N].

(** Decoding the tokens, left to right. *)
Fixpoint decode (ts : list token) : option jsstring :=
  match ts with
  | [] => Some []
  | Unit c :: ts' => option_map (cons c) (decode ts')
  | Octet b h1 h2 :: ts' =>
      if (b <? 128)%N then
        option_map (app (if preserved b then [37%N; h1; h2] else [b])) (decode ts')
      else if ((192 <=? b) && (b <? 224))%N then
        match ts' with
        | t1 :: ts2 =>
            match continuation t1 with
            | Some c1 =>
                match scalar 128 ((b - 192) * 64 + c1) with
                | Some v => option_map (app (utf16 v)) (decode ts2)
                | None => None
                end
            | None => None
            end
        | _ => None
        end
      else if ((224 <=? b) && (b <? 240))%N then
        match ts' with
        | t1 :: t2 :: ts3 =>
            match continuation t1, continuation t2 with
            | Some c1, Some c2 =>
                match scalar 2048 (((b - 224) * 64 + c1) * 64 + c2) with
                | Some v => option_map (app (utf16 v)) (decode ts3)
                | None => None
                end
            | _, _ => None
            end
        | _ => None
        end
      else if ((240 <=? b) && (b <? 248))%N then
        match ts' with
        | t1 :: t2 :: t3 :: ts4 =>
            match continuation t1, continuation t2, continuation t3 with
            | Some c1, Some c2, Some c3 =>
                match scalar 65536 ((((b - 240) * 64 + c1) * 64 + c2) * 64 + c3) with
                | Some v => option_map (app (utf16 v)) (decode ts4)
                | None => None
                end
            | _, _, _ => None
            end
        | _ => None
        end
      else None
  end.

(** [decodeURI(s)]: the decoded string, or a [URIError]. *)
Definition decodeURI (s : jsstring) : completion jsstring :=
  match tokens s with
  | Some ts =>
      match decode ts with
      | Some r => Return r
      | None => Throw URIError
      end
  | None => Throw URIError
  end.

End URI.

(** ** The input record *)

(** [value || fallback] and truthiness on a string property that may be
    absent: the empty string is falsy. *)
Definition orElse (v : option jsstring) (fallback : jsstring) : jsstring :=
  match v with
  | Some (c :: s) => c :: s
  | _ => fallback
  end.

Definition truthyStr (v : option jsstring) : bool :=
  match v with
  | Some (_ :: _) => true
  | _ => false
  end.

(** Truthiness of a numeric property that may be absent: zero is falsy. *)
Definition truthyNum (v : option Z) : option Z :=
  match v with
  | Some 0 => None
  | _ => v
  end.

(** A partial date: [{ year, month, day }]. *)
Module PositionDate.
Record t := Build { year : option Z; month : option Z; day : option Z }.
End PositionDate.

Module Position.
Record t := Build {
  title : option jsstring;
  description : option jsstring;
  employmentType : option jsstring;
  start : option PositionDate.t;
  end_ : option PositionDate.t;
  companyName : option jsstring;
  companyId : option jsstring;
  companyURL : option jsstring;
  companyLogo : option jsstring;
  companyStaffCountRange : option jsstring;
  companyIndustry : option jsstring;
  companyDescription : option jsstring;
  companySpecialties : option jsstring
}.
End Position.

Module Education.
Record t := Build {
  degree : option jsstring;
  fieldOfStudy : option jsstring;
  schoolName : option jsstring;
  start : option PositionDate.t;
  end_ : option PositionDate.t
}.
End Education.

(** An object of [skills] or of [languages]: [{ name }]. *)
Module Named.
Record t := Build { name : option jsstring }.
End Named.

Module Locale.
Record t := Build { country : option jsstring }.
End Locale.

Module Geo.
Record t := Build { full : option jsstring }.
End Geo.

(** The profile.  The work history is read from the property [position]. *)
Module Profile.
Record t := Build {
  username : option jsstring;
  urn : option jsstring;
  linkedin_public_identifier : option jsstring;
  firstName : option jsstring;
  lastName : option jsstring;
  headline : option jsstring;
  summary : option jsstring;
  profilePicture : option jsstring;
  isOpenToWork : option bool;
  isHiring : option bool;
  geo : option Geo.t;
  position : option (list Position.t);
  educations : option (list Education.t);
  skills : option (list (option Named.t));
  languages : option (list (option Named.t));
  supportedLocales : option (list Locale.t)
}.
End Profile.

(** ** The output record *)

Module JobEntry.
Record t := Build {
  jobTitle : jsstring;
  duration : number;
  dateRange : jsstring;
  description : jsstring;
  employmentType : jsstring
}.
End JobEntry.

Module Experience.
Record t := Build {
  company : jsstring;
  companyId : jsstring;
  companyLink : jsstring;
  companyLogo : jsstring;
  companyRange : jsstring;
  companyIndustry : jsstring;
  companyDescription : jsstring;
  companySpecialties : jsstring;
  jobs : list JobEntry.t
}.

(** [entry.jobs.push(job)]. *)
Definition pushJob (job : JobEntry.t) (entry : t) : t :=
  Build (company entry) (companyId entry) (companyLink entry)
    (companyLogo entry) (companyRange entry) (companyIndustry entry)
    (companyDescription entry) (companySpecialties entry)
    (jobs entry ++ [job]).

(** The employer metadata of an entry: the entry without its jobs. *)
Definition header (entry : t) : t :=
  Build (company entry) (companyId entry) (companyLink entry)
    (companyLogo entry) (companyRange entry) (companyIndustry entry)
    (companyDescription entry) (companySpecialties entry) [].
End Experience.

(** An entry of the output's [educations]; [date] and [degree] are set
    only when their strings are not empty. *)
Module EducationEntry.
Record t := Build {
  date : option jsstring;
  degree : option jsstring;
  school : jsstring
}.
End EducationEntry.

(** The output's [skills]: [{ skills, details }], or [{}]. *)
Module SkillsOut.
Record t := Build {
  skills : list (option jsstring);
  details : list (option Named.t)
}.
End SkillsOut.

Module Output.
Record t := Build {
  linkedin_public_identifier : option jsstring;
  experiences : list Experience.t;
  years_of_experience : number;
  keywords : jsstring;
  current_industry : jsstring;
  current_job_title : jsstring;
  current_company : jsstring;
  current_employment_type : jsstring;
  current_company_employee_range : jsstring;
  job_titles : jsstring;
  industries_tag : jsstring;
  educations : list EducationEntry.t;
  firstname : jsstring;
  lastname : jsstring;
  profile_pic : jsstring;
  spotlight : jsstring;
  is_open_to_work : bool;
  is_hiring : bool;
  about : jsstring;
  languages : jsstring;
  skills : option SkillsOut.t;
  headline : jsstring;
  current_employment_duration : number;
  degrees : jsstring;
  schools : jsstring;
  companies : jsstring;
  public_linkedin_identifier : jsstring;
  linkedin_url : jsstring;
  urn : option jsstring;
  location : jsstring;
  profil_details : Profile.t
}.
End Output.

(** ** The helpers of [processProfile] *)

(** [createDateFromPositionDate] (lines 336-352). *)
Definition createDateFromPositionDate (positionDate : option PositionDate.t)
  : option Date :=
  match positionDate with
  | None => None
  | Some pd =>
      match truthyNum (PositionDate.year pd) with
      | None => None
      | Some year =>
          let month :=
            match truthyNum (PositionDate.month pd) with
            | None => 6
            | Some m => m - 1
            end in
          let day :=
            match truthyNum (PositionDate.day pd) with
            | None => 1
            | Some d => d
            end in
          Some (JSDate.make year month day)
      end
  end.

(** The literal ['bénévole']: its second and fourth code units are
    U+00E9. *)
Definition benevole : jsstring :=
  js"b" ++ [233%N] ++ js"n" ++ [233%N] ++ js"vole".

(** [isExcludedPosition] (lines 355-363). *)
Definition isExcludedPosition (pos : Position.t) : bool :=
  let employmentType :=
    match Position.employmentType pos with
    | Some (c :: s) => JSString.toLowerCase (c :: s)
    | _ => []
    end in
  let title :=
    match Position.title pos with
    | Some (c :: s) => JSString.toLowerCase (c :: s)
    | _ => []
    end in
  JSString.includes employmentType (js"intern")
  || JSString.includes title (js"stagiaire")
  || JSString.includes employmentType (js"volunteer")
  || JSString.includes title benevole.

(** ** [processProfile] *)

(** The wall clock: [clock k] is the time value that the [k]-th evaluation
    of [new Date()] of an invocation returns. *)
Definition Clock := nat -> Z.

Definition newDate (clock : Clock) (k : nat) : Date := JSDate.Time (clock k).

(** [1000 * 60 * 60 * 24 * 30] and [1000 * 60 * 60 * 24 * 365.25]. *)
Definition msPerMonth : Q := 1000 * 60 * 60 * 24 * 30.
Definition msPerYear : Q := 1000 * 60 * 60 * 24 * 365.25.

(** [text.split(/\s+/).forEach(word => keywordsSet.add(word))]; a [Set]
    keeps its elements in the order of their first insertion. *)
Definition addWord (set : list jsstring) (word : jsstring) : list jsstring :=
  if existsb (JSString.eqb word) set then set else set ++ [word].

Definition addWords (text : jsstring) (set : list jsstring) : list jsstring :=
  fold_left addWord (JSString.split_ws text) set.

(** The same, guarded by [if (text)]. *)
Definition addWordsOf (text : option jsstring) (set : list jsstring)
  : list jsstring :=
  match text with
  | Some (c :: s) => addWords (c :: s) set
  | _ => set
  end.

(** [el && el.name] for an element of [skills] or of [languages], which
    may be [null]. *)
Definition nameOf (el : option Named.t) : option jsstring :=
  match el with
  | Some e => Named.name e
  | None => None
  end.

(** Lines 58-63 and 67-72. *)
Definition addNames (entities : option (list (option Named.t)))
    (set : list jsstring) : list jsstring :=
  match entities with
  | Some l => fold_left (fun acc el => addWordsOf (nameOf el) acc) l set
  | None => set
  end.

(** [pos.end && createDateFromPositionDate(pos.end) || now] (lines 97 and
    164). *)
Definition endDateOf (pos : Position.t) (now : Date) : Date :=
  match createDateFromPositionDate (Position.end_ pos) with
  | Some d => d
  | None => now
  end.

(** [Math.max(0, (endDate - startDate) / (1000 * 60 * 60 * 24 * 30))]
    (lines 102 and 171). *)
Definition durationMonths (startDate endDate : Date) : number :=
  JSMath.max0
    (JSMath.divc (JSMath.sub (JSDate.valueOf endDate) (JSDate.valueOf startDate))
       msPerMonth).

(** The job entry of a position (lines 96-117), [now] being the reading
    of line 94. *)
Definition jobEntryOf (now : Date) (pos : Position.t) : JobEntry.t :=
  let startDate := createDateFromPositionDate (Position.start pos) in
  let endDate := endDateOf pos now in
  let '(jobDurationMonths, dateRange) :=
    match startDate with
    | Some startDate =>
        let startDateStr := JSDate.toLocaleDateString startDate in
        let endDateStr :=
          if JSDate.ltb endDate now then JSDate.toLocaleDateString endDate
          else js"Present" in
        (durationMonths startDate endDate, startDateStr ++ js" - " ++ endDateStr)
    | None => (Num 0, [])
    end in
  JobEntry.Build (orElse (Position.title pos) [])
    (JSMath.round jobDurationMonths) dateRange
    (orElse (Position.description pos) [])
    (orElse (Position.employmentType pos) []).

(** [pos.companyId || ''] (line 85). *)
Definition companyIdOf (pos : Position.t) : jsstring :=
  orElse (Position.companyId pos) [].

(** The company entry that a position starts (lines 133-143). *)
Definition newExperienceEntry (pos : Position.t) (jobEntry : JobEntry.t)
  : Experience.t :=
  Experience.Build
    (orElse (Position.companyName pos) (js"Unknown Company"))
    (companyIdOf pos)
    (orElse (Position.companyURL pos) [])
    (orElse (Position.companyLogo pos) [])
    (orElse (Position.companyStaffCountRange pos) [])
    (orElse (Position.companyIndustry pos) [])
    (orElse (Position.companyDescription pos) [])
    (orElse (Position.companySpecialties pos) [])
    [jobEntry].

(** The variables that the callback of [positions.forEach] (lines 82-149)
    updates.  [currentExperienceEntry] is [null] or a reference to an
    element of [experienceArray], kept as the index of that element;
    [reads] counts the evaluations of [new Date()]. *)
Module Loop.
Record state := Build {
  keywordsSet : list jsstring;
  experienceArray : list Experience.t;
  lastCompanyId : option jsstring;
  currentExperienceEntry : option nat;
  reads : nat
}.
End Loop.

Definition positionStep (clock : Clock) (st : Loop.state) (pos : Position.t)
  : Loop.state :=
  let companyId := companyIdOf pos in
  let now := newDate clock (Loop.reads st) in
  let jobEntry := jobEntryOf now pos in
  let keywordsSet :=
    addWordsOf (Position.description pos)
      (addWordsOf (Position.title pos) (Loop.keywordsSet st)) in
  let sameCompany :=
    match Loop.lastCompanyId st with
    | Some last => JSString.eqb companyId last
    | None => false
    end in
  match sameCompany, Loop.currentExperienceEntry st with
  | true, Some ref =>
      Loop.Build keywordsSet
        (alter (Experience.pushJob jobEntry) ref (Loop.experienceArray st))
        (Some companyId) (Some ref) (S (Loop.reads st))
  | _, _ =>
      Loop.Build keywordsSet
        (Loop.experienceArray st ++ [newExperienceEntry pos jobEntry])
        (Some companyId) (Some (length (Loop.experienceArray st)))
        (S (Loop.reads st))
  end.

(** The keyword set before the positions are visited (lines 42-73). *)
Definition profileKeywords (profile : Profile.t) : list jsstring :=
  addNames (Profile.languages profile)
    (addNames (Profile.skills profile)
       (addWordsOf (Profile.headline profile)
          (addWordsOf (Profile.summary profile) []))).

(** [profile.position || []]. *)
Definition positionsOf (profile : Profile.t) : list Position.t :=
  match Profile.position profile with
  | Some l => l
  | None => []
  end.

Definition visitPositions (clock : Clock) (keywordsSet : list jsstring)
    (positions : list Position.t) : Loop.state :=
  fold_left (positionStep clock) positions
    (Loop.Build keywordsSet [] None None 0).

(** Lines 156-186: the seniority.  [now] is the reading of line 160. *)
Definition relevantPositions (positions : list Position.t) : list Position.t :=
  List.filter (fun pos => negb (isExcludedPosition pos)) positions.

Definition seniorityStep (now : Date) (earliestRelevantStartDate : option Date)
    (pos : Position.t) : option Date :=
  match createDateFromPositionDate (Position.start pos) with
  | None => earliestRelevantStartDate
  | Some startDate =>
      if JSMath.geb (durationMonths startDate (endDateOf pos now)) 7 then
        match earliestRelevantStartDate with
        | None => Some startDate
        | Some earliest =>
            if JSDate.ltb startDate earliest then Some startDate
            else Some earliest
        end
      else earliestRelevantStartDate
  end.

Definition earliestRelevantStartDate (now : Date) (positions : list Position.t)
  : option Date :=
  fold_left (seniorityStep now) (relevantPositions positions) None.

Definition yearsOfExperience (now : Date) (positions : list Position.t)
  : number :=
  match earliestRelevantStartDate now positions with
  | Some earliest =>
      JSMath.round
        (JSMath.divc (JSMath.sub (JSDate.valueOf now) (JSDate.valueOf earliest))
           msPerYear)
  | None => Num 99
  end.

(** Lines 190-193: the first position without an end year. *)
Definition isCurrent (pos : Position.t) : bool :=
  match Position.end_ pos with
  | None => true
  | Some e =>
      match truthyNum (PositionDate.year e) with
      | None => true
      | Some _ => false
      end
  end.

Definition currentPosition (positions : list Position.t) : option Position.t :=
  List.find isCurrent positions.

(** [list.map(f).filter(Boolean).join(', ')] (lines 210-215). *)
Definition truthyOnes (l : list (option jsstring)) : list jsstring :=
  omap (fun v => if truthyStr v then v else None) l.

(** [join] on an array whose elements may be [undefined]. *)
Definition joinOpt (sep : jsstring) (l : list (option jsstring)) : jsstring :=
  JSString.join sep (map (fun v => default [] v) l).

(** Lines 220-262: one education. *)
Definition yearOf (d : option PositionDate.t) : option Z :=
  match d with
  | Some pd => truthyNum (PositionDate.year pd)
  | None => None
  end.

Definition educationEntryOf (edu : Education.t) : EducationEntry.t :=
  let dateStr :=
    match yearOf (Education.start edu), yearOf (Education.end_ edu) with
    | Some s, Some e => JSString.ofZ s ++ js" - " ++ JSString.ofZ e
    | Some s, None => js"Depuis " ++ JSString.ofZ s
    | None, Some e => js"Jusqu'" ++ [224%N] ++ js" " ++ JSString.ofZ e
    | None, None => []
    end in
  let degree := orElse (Education.degree edu) [] in
  let fieldOfStudy := orElse (Education.fieldOfStudy edu) [] in
  let degreeStr :=
    match degree, fieldOfStudy with
    | _ :: _, _ :: _ => degree ++ js", " ++ fieldOfStudy
    | _ :: _, [] => degree
    | [], _ => fieldOfStudy
    end in
  EducationEntry.Build
    (match dateStr with [] => None | _ => Some dateStr end)
    (match degreeStr with [] => None | _ => Some degreeStr end)
    (orElse (Education.schoolName edu) []).

Definition keepsEducation (entry : EducationEntry.t) : bool :=
  truthyStr (EducationEntry.degree entry)
  || truthyStr (Some (EducationEntry.school entry)).

Definition educationsArray (profile : Profile.t) : list EducationEntry.t :=
  match Profile.educations profile with
  | Some l => List.filter keepsEducation (map educationEntryOf l)
  | None => []
  end.

(** [profile.supportedLocales[0]?.country]: reading element 0 of an absent
    array raises a [TypeError]; an empty array gives [undefined]. *)
Definition firstLocaleCountry (profile : Profile.t)
  : completion (option jsstring) :=
  match Profile.supportedLocales profile with
  | None => Throw TypeError
  | Some [] => Return None
  | Some (l :: _) => Return (Locale.country l)
  end.

(** [list.includes(v)] for a list of string literals. *)
Definition oneOf (list : list jsstring) (v : option jsstring) : bool :=
  match v with
  | Some s => existsb (JSString.eqb s) list
  | None => false
  end.

Definition Francais : jsstring := js"Fran" ++ [231%N] ++ js"ais".

(** [list.map(el => el.name)] (lines 277 and 304): reading [name] from a
    [null] element raises a [TypeError]. *)
Fixpoint namesOf (l : list (option Named.t))
  : completion (list (option jsstring)) :=
  match l with
  | [] => Return []
  | None :: _ => Throw TypeError
  | Some el :: rest =>
      let! names := namesOf rest in
      Return (Named.name el :: names)
  end.

(** Lines 274-303: the languages. *)
Definition languagesOf (profile : Profile.t) : completion jsstring :=
  match Profile.languages profile with
  | Some (e :: l) =>
      let! languages := namesOf (e :: l) in
      let! country := firstLocaleCountry profile in
      let languages :=
        if oneOf [js"FR"] country
           && negb (existsb (oneOf [Francais; js"French"]) languages)
        then languages ++ [Some Francais] else languages in
      let! country := firstLocaleCountry profile in
      let languages :=
        if oneOf [js"US"; js"EN"] country
           && negb (existsb (oneOf [js"English"]) languages)
        then languages ++ [Some (js"English")] else languages in
      Return (joinOpt (js", ") languages)
  | _ =>
      let! country := firstLocaleCountry profile in
      if oneOf [js"FR"] country then Return Francais
      else
        let! country := firstLocaleCountry profile in
        if oneOf [js"US"; js"EN"] country then Return (js"English")
        else Return []
  end.

(** [ToString] of a string property that may be absent, as [decodeURI]
    and [+] apply it to [profile.username]. *)
Definition toString (v : option jsstring) : jsstring :=
  default (js"undefined") v.

(** [processProfile] (lines 38-333). *)
Definition processProfile (clock : Clock) (profile : Profile.t)
  : completion Output.t :=
  let positions := positionsOf profile in
  let loop := visitPositions clock (profileKeywords profile) positions in
  let experiences := Loop.experienceArray loop in
  let now := newDate clock (Loop.reads loop) in
  let current := currentPosition positions in
  let currentField (f : Position.t -> option jsstring) : jsstring :=
    match current with
    | Some pos => orElse (f pos) []
    | None => []
    end in
  let educations := educationsArray profile in
  let! languages := languagesOf profile in
  let! skills :=
    match Profile.skills profile with
    | Some l =>
        let! names := namesOf l in
        Return (Some (SkillsOut.Build names l))
    | None => Return None
    end in
  (* [output.experiences?.[0]?.jobs?.[0]?.duration]; [NaN] stands for the
     equally falsy [undefined] *)
  let firstDuration :=
    match experiences with
    | e :: _ =>
        match Experience.jobs e with
        | j :: _ => JobEntry.duration j
        | [] => NaN
        end
    | [] => NaN
    end in
  let! public_linkedin_identifier :=
    URI.decodeURI (toString (Profile.username profile)) in
  let! linkedin_url :=
    URI.decodeURI
      (js"https://linkedin.com/in/" ++ toString (Profile.username profile)) in
  Return
    (Output.Build
       (Profile.linkedin_public_identifier profile)
       experiences
       (yearsOfExperience now positions)
       (JSString.join (js" ") (Loop.keywordsSet loop))
       (currentField Position.companyIndustry)
       (currentField Position.title)
       (currentField Position.companyName)
       (currentField Position.employmentType)
       (currentField Position.companyStaffCountRange)
       (JSString.join (js", ")
          (truthyOnes (map Position.title (relevantPositions positions))))
       (JSString.join (js", ")
          (truthyOnes
             (map Position.companyIndustry (relevantPositions positions))))
       educations
       (orElse (Profile.firstName profile) [])
       (orElse (Profile.lastName profile) [])
       (orElse (Profile.profilePicture profile) [])
       (if default false (Profile.isOpenToWork profile)
        then js"Open to work" else [])
       (default false (Profile.isOpenToWork profile))
       (default false (Profile.isHiring profile))
       (orElse (Profile.summary profile) [])
       languages
       skills
       (orElse (Profile.headline profile) [])
       (if JSMath.truthy firstDuration then firstDuration else Num 0)
       (joinOpt (js", ") (map EducationEntry.degree educations))
       (JSString.join (js", ") (map EducationEntry.school educations))
       (JSString.join (js",") (map Experience.company experiences))
       public_linkedin_identifier
       linkedin_url
       (Profile.urn profile)
       (match Profile.geo profile with
        | Some g => orElse (Geo.full g) []
        | None => []
        end)
       profile).

(** ** Object literals for the examples *)

(** [{}]: every property absent. *)
Definition noPosition : Position.t :=
  Position.Build None None None None None None None None None None None None None.

Definition noProfile : Profile.t :=
  Profile.Build None None None None None None None None None None None None None
    None None None.

(** [{ year: y }] and [{ year: y, month: m }]. *)
Definition yearOnly (y : Z) : PositionDate.t :=
  PositionDate.Build (Some y) None None.

Definition yearMonth (y m : Z) : PositionDate.t :=
  PositionDate.Build (Some y) (Some m) None.

(** [{ companyId: id, title: t }]. *)
Definition titled (id t : jsstring) : Position.t :=
  Position.Build (Some t) None None None None None (Some id) None None None
    None None None.

(** [{ title: t, start: s, end: e }]. *)
Definition dated (t : jsstring) (s e : option PositionDate.t) : Position.t :=
  Position.Build (Some t) None None s e None None None None None None None None.

(** [{ urn: 'u', username: name, supportedLocales: locales, position: ps }]. *)
Definition profileOf (name : jsstring) (locales : option (list Locale.t))
    (ps : list Position.t) : Profile.t :=
  Profile.Build (Some name) (Some (js"u")) None None None None None None None
    None None (Some ps) None None None locales.

(** A clock that stands still at [now]. *)
Definition still (now : Z) : Clock := fun _ => now.

(** ** Notions used by the statements *)

(** [output.experiences] after the positions [ps] have been visited. *)
Definition experiencesOf (clock : Clock) (kw : list jsstring)
    (ps : list Position.t) : list Experience.t :=
  Loop.experienceArray (visitPositions clock kw ps).

(** The job entries of the positions [ps] when the first of them is the
    [k]-th position visited: one entry per position, in order, each with
    its own reading of the clock. *)
Definition jobsFrom (clock : Clock) (k : nat) (ps : list Position.t)
  : list JobEntry.t :=
  imap (fun i pos => jobEntryOf (newDate clock (k + i)) pos) ps.

(** [w] occurs in [s] as a substring. *)
Definition substring (w s : jsstring) : Prop :=
  exists pre post, s = pre ++ w ++ post.

(** [pos.employmentType] and [pos.title] as [isExcludedPosition] compares
    them: in lower case, the empty string when absent. *)
Definition lowered (v : option jsstring) : jsstring :=
  JSString.toLowerCase (orElse v []).

(** The exclusion in which each of the four words is looked for in both
    the employment type and the title. *)
Definition mentionsExcludedWord (pos : Position.t) : bool :=
  existsb
    (fun w =>
       JSString.includes (lowered (Position.employmentType pos)) w
       || JSString.includes (lowered (Position.title pos)) w)
    [js"intern"; js"stagiaire"; js"volunteer"; benevole].

(** A clock that advances by one millisecond from a reading to the next. *)
Definition ticking (t0 : Z) : Clock := fun k => t0 + Z.of_nat k.

(** The 3rd of November 2026, 00:00, as a time value. *)
Definition nov2026 : Z := 1793664000000.

(** [{ title: 'Intern' }]. *)
Definition internByTitle : Position.t := dated (js"Intern") None None.

(** [{ title: 'Dev', start: { year: 2020 }, end: { year: 2030 } }]. *)
Definition endsIn2030 : Position.t :=
  dated (js"Dev") (Some (yearOnly 2020)) (Some (yearOnly 2030)).

(** [{ title: 'Dev', start: { year: 2030 }, end: { year: 2032 } }]. *)
Definition startsIn2030 : Position.t :=
  dated (js"Dev") (Some (yearOnly 2030)) (Some (yearOnly 2032)).

(** [{ title: 'Dev', start: { year: 2020 } }]. *)
Definition since2020 : Position.t :=
  dated (js"Dev") (Some (yearOnly 2020)) None.

(** [{ companyName: name }]: a position without [companyId]. *)
Definition unidentified (name : jsstring) : Position.t :=
  Position.Build None None None None None (Some name) None None None None
    None None None.

(** One millisecond before six and a half years of 365.25 days have
    passed since the 1st of July 2020. *)
Definition beforeHalfYear : Z := 1798685999999.

(** Seven months of thirty days, in milliseconds. *)
Definition sevenMonths : Z := 7 * (30 * JSDate.msPerDay).

(** The quotient [n / d] rounded to the nearest integer, a half going
    up. *)
Definition nearest (n d : Z) : Z := (2 * n + d) / (2 * d).

(** A month of thirty days and a year of 365.25 days, in milliseconds. *)
Definition monthLength : Z := 2592000000.

Definition yearLength : Z := 31557600000.

(** The thirty-day months from the time value [s] to the time value [e],
    rounded to the nearest integer: 0 when [e] is not after [s]. *)
Definition monthsBetween (s e : Z) : Z :=
  if e <=? s then 0 else nearest (e - s) monthLength.

(** The start of a position that counts for the seniority: the position
    is not excluded, its start date resolves to a time value [s], and from
    [s] to the time value of its end date, or to [now] when its end date
    does not resolve, there are at least seven months of thirty days. *)
Definition qualifyingStart (now : Z) (pos : Position.t) : option Z :=
  if isExcludedPosition pos then None
  else
    match createDateFromPositionDate (Position.start pos) with
    | Some (JSDate.Time s) =>
        match createDateFromPositionDate (Position.end_ pos) with
        | Some (JSDate.Time e) =>
            if sevenMonths <=? e - s then Some s else None
        | Some JSDate.Invalid => None
        | None => if sevenMonths <=? now - s then Some s else None
        end
    | _ => None
    end.

Definition qualifyingStarts (now : Z) (positions : list Position.t) : list Z :=
  omap (qualifyingStart now) positions.

(** Keeping the earlier of two start dates (lines 174-176). *)
Definition earlier (acc : option Date) (s : Z) : option Date :=
  match acc with
  | None => Some (JSDate.Time s)
  | Some earliest =>
      if JSDate.ltb (JSDate.Time s) earliest then Some (JSDate.Time s)
      else Some earliest
  end.

(** The company entry that carries the employer metadata of [pos], each
    property [''] when the position lacks it and the company name
    'Unknown Company', and that holds the jobs [jobs]. *)
Definition groupOf (pos : Position.t) (jobs : list JobEntry.t) : Experience.t :=
  Experience.Build
    (orElse (Position.companyName pos) (js"Unknown Company"))
    (orElse (Position.companyId pos) [])
    (orElse (Position.companyURL pos) [])
    (orElse (Position.companyLogo pos) [])
    (orElse (Position.companyStaffCountRange pos) [])
    (orElse (Position.companyIndustry pos) [])
    (orElse (Position.companyDescription pos) [])
    (orElse (Position.companySpecialties pos) [])
    jobs.

(** What the loop variables hold once the position [p] has been visited:
    [currentExperienceEntry] refers to the last company entry, whose
    identifier is that of [p] and whose last job is the job of [p]. *)
Definition afterPosition (clock : Clock) (k : nat) (p : Position.t)
    (st : Loop.state) : Prop :=
  Loop.lastCompanyId st = Some (companyIdOf p)
  /\ exists gs g,
       Loop.experienceArray st = gs ++ [g]
       /\ Loop.currentExperienceEntry st = Some (length gs)
       /\ Experience.companyId g = companyIdOf p
       /\ last (Experience.jobs g) = Some (jobEntryOf (newDate clock k) p).

(** ** Notions used by the further properties *)

(** The strings the keywords are taken from, in the order in which
    [processProfile] splits them: the summary, the headline, the names of
    the skills and of the languages (lines 44-73), then the title and the
    description of each position (lines 120-125). *)
Definition keywordSources (profile : Profile.t) : list (option jsstring) :=
  [Profile.summary profile; Profile.headline profile]
  ++ map nameOf (default [] (Profile.skills profile))
  ++ map nameOf (default [] (Profile.languages profile))
  ++ concat (map (fun pos => [Position.title pos; Position.description pos])
               (positionsOf profile)).

(** The pieces of a source: none when it is absent or empty. *)
Definition tokensOf (v : option jsstring) : list jsstring :=
  match v with
  | Some (c :: s) => JSString.split_ws (c :: s)
  | _ => []
  end.

Definition keywordTokens (profile : Profile.t) : list jsstring :=
  concat (map tokensOf (keywordSources profile)).

(** [keywordsSet] when [processProfile] joins it (line 187). *)
Definition keywordsOf (clock : Clock) (profile : Profile.t) : list jsstring :=
  Loop.keywordsSet
    (visitPositions clock (profileKeywords profile) (positionsOf profile)).

(** The elements of [l] that are not in [seen], each at its first
    occurrence. *)
Fixpoint firstOccurrences (seen l : list jsstring) : list jsstring :=
  match l with
  | [] => []
  | w :: l' =>
      if existsb (JSString.eqb w) seen then firstOccurrences seen l'
      else w :: firstOccurrences (seen ++ [w]) l'
  end.

(** A string without white space. *)
Definition solid (w : jsstring) : Prop :=
  forall c, c ∈ w -> JSString.isWhiteSpace c = false.

(** The record [processProfile] returns (lines 39-333) once the languages
    and the two identifier fields have been computed; no element of
    [skills] is [null] then. *)
Definition recordOf (clock : Clock) (profile : Profile.t)
    (languages public_linkedin_identifier linkedin_url : jsstring) : Output.t :=
  let positions := positionsOf profile in
  let loop := visitPositions clock (profileKeywords profile) positions in
  let experiences := Loop.experienceArray loop in
  let now := newDate clock (Loop.reads loop) in
  let current := currentPosition positions in
  let currentField (f : Position.t -> option jsstring) : jsstring :=
    match current with
    | Some pos => orElse (f pos) []
    | None => []
    end in
  let educations := educationsArray profile in
  let firstDuration :=
    match experiences with
    | e :: _ =>
        match Experience.jobs e with
        | j :: _ => JobEntry.duration j
        | [] => NaN
        end
    | [] => NaN
    end in
  Output.Build
    (Profile.linkedin_public_identifier profile)
    experiences
    (yearsOfExperience now positions)
    (JSString.join (js" ") (Loop.keywordsSet loop))
    (currentField Position.companyIndustry)
    (currentField Position.title)
    (currentField Position.companyName)
    (currentField Position.employmentType)
    (currentField Position.companyStaffCountRange)
    (JSString.join (js", ")
       (truthyOnes (map Position.title (relevantPositions positions))))
    (JSString.join (js", ")
       (truthyOnes
          (map Position.companyIndustry (relevantPositions positions))))
    educations
    (orElse (Profile.firstName profile) [])
    (orElse (Profile.lastName profile) [])
    (orElse (Profile.profilePicture profile) [])
    (if default false (Profile.isOpenToWork profile)
     then js"Open to work" else [])
    (default false (Profile.isOpenToWork profile))
    (default false (Profile.isHiring profile))
    (orElse (Profile.summary profile) [])
    languages
    (option_map
       (fun l => SkillsOut.Build (map nameOf l) l)
       (Profile.skills profile))
    (orElse (Profile.headline profile) [])
    (if JSMath.truthy firstDuration then firstDuration else Num 0)
    (joinOpt (js", ") (map EducationEntry.degree educations))
    (JSString.join (js", ") (map EducationEntry.school educations))
    (JSString.join (js",") (map Experience.company experiences))
    public_linkedin_identifier
    linkedin_url
    (Profile.urn profile)
    (match Profile.geo profile with
     | Some g => orElse (Geo.full g) []
     | None => []
     end)
    profile.

(** [{ headline: text }] in a profile that [processProfile] accepts. *)
Definition headlined (text : jsstring) : Profile.t :=
  Profile.Build (Some (js"jo")) (Some (js"u")) None None None (Some text) None
    None None None None None None None None (Some []).

(** The number of code units that a sequence of tokens was read from. *)
Definition unitsOf (ts : list URI.token) : nat :=
  list_sum (map (fun t => match t with URI.Unit _ => 1 | URI.Octet _ _ _ => 3 end) ts)%nat.

(** An education that says something: a degree, a field of study or a
    school name that is not empty. *)
Definition describesEducation (edu : Education.t) : bool :=
  truthyStr (Education.degree edu)
  || truthyStr (Education.fieldOfStudy edu)
  || truthyStr (Education.schoolName edu).

(** A position that has ended: its [end] holds a year other than 0. *)
Definition hasEnded (pos : Position.t) : Prop :=
  exists e y,
    Position.end_ pos = Some e /\ PositionDate.year e = Some y /\ y <> 0.

(** [{ degree: d, schoolName: s, start: { year: y } }]. *)
Definition studied (d s : option jsstring) (y : Z) : Education.t :=
  Education.Build d None s (Some (yearOnly y)) None.

(** [{ urn: 'u', username: 'jo', supportedLocales: [], educations: l }]. *)
Definition educated (l : list Education.t) : Profile.t :=
  Profile.Build (Some (js"jo")) (Some (js"u")) None None None None None None
    None None None None (Some l) None None (Some []).

(** [supportedLocales[0]?.country] when [supportedLocales] is an array. *)
Definition localeCountry (profile : Profile.t) : option jsstring :=
  match Profile.supportedLocales profile with
  | Some (l :: _) => Locale.country l
  | _ => None
  end.

(** The names of the languages that the profile lists. *)
Definition listedLanguages (profile : Profile.t) : list (option jsstring) :=
  map nameOf (default [] (Profile.languages profile)).

(** [{ languages: names, supportedLocales: [{ country }] }] in a profile
    that [processProfile] accepts. *)
Definition speaking (names : list jsstring) (country : jsstring) : Profile.t :=
  Profile.Build (Some (js"jo")) (Some (js"u")) None None None None None None
    None None None None None None
    (Some (map (fun n => Some (Named.Build (Some n))) names))
    (Some [Locale.Build (Some country)]).

(** ** The endpoint [POST /api/process-profiles] (lines 384-497)

    The body that [express.json] has parsed is an array of items, one
    item, or something that is neither.  An item is [null], an object
    [{ json: profile }], as n8n wraps it, or a profile itself; a profile
    has the property [urn] when [urn] is not [None].  The response is the
    status and what the JSON sent depends on: the items and the metadata,
    or the kind of the exception caught.  [Date.now()] and [new Date()]
    read the same clock. *)
Module Batch.

Inductive item :=
| Null
| Wrapped (json : Profile.t)
| Plain (profile : Profile.t).

Inductive body :=
| Array (items : list item)
| Object (it : item)
| Primitive.

Record metadata := Meta {
  processed : nat;
  filtered : nat;
  total : nat;
  processingTimeMs : Z
}.

Inductive response :=
| Ok (items : list Output.t) (meta : metadata)
| BadRequest
| ServerError (e : exn).

(** [profile.hasOwnProperty('urn')]. *)
Definition hasUrn (p : Profile.t) : bool :=
  match Profile.urn p with
  | Some _ => true
  | None => false
  end.

(** [Object.keys(items[0])], evaluated for the log when the array is not
    empty (lines 417-423): it raises a [TypeError] on [null]. *)
Definition firstItemKeys (items : list item) : completion unit :=
  match items with
  | Null :: _ => Throw TypeError
  | _ => Return tt
  end.

(** [items[0] && items[0].json] (line 430). *)
Definition isN8n (items : list item) : bool :=
  match items with
  | Wrapped _ :: _ => true
  | _ => false
  end.

(** The callbacks of [items.filter]: [el.json && el.json.hasOwnProperty('urn')]
    in the n8n format (line 432), [el.hasOwnProperty('urn')] in the direct
    format (line 437).  Both read a property of [el]. *)
Definition keeps (n8n : bool) (el : item) : completion bool :=
  match el with
  | Null => Throw TypeError
  | Wrapped p => Return (if n8n then hasUrn p else false)
  | Plain p => Return (if n8n then false else hasUrn p)
  end.

(** [items.filter(callback)] for a callback that may raise. *)
Fixpoint filter (callback : item -> completion bool) (items : list item)
  : completion (list item) :=
  match items with
  | [] => Return []
  | el :: rest =>
      let! keep := callback el in
      let! kept := filter callback rest in
      Return (if keep then el :: kept else kept)
  end.

(** [filteredItems] (lines 432 and 437). *)
Definition filteredItems (items : list item) : completion (list item) :=
  filter (keeps (isN8n items)) items.

(** [item.json] for an item kept in the n8n format, the item itself for
    one kept in the direct format. *)
Definition payload (el : item) : option Profile.t :=
  match el with
  | Null => None
  | Wrapped p => Some p
  | Plain p => Some p
  end.

(** The clock as an invocation sees it after [k] readings. *)
Definition later (clock : Clock) (k : nat) : Clock :=
  fun i => clock (k + i)%nat.

(** The readings that [processProfile] makes when it returns: one for
    each position and one for the seniority. *)
Definition readingsOf (profile : Profile.t) : nat :=
  S (length (positionsOf profile)).

(** The loop of lines 445-460, [k] readings having been made: the records
    in the order of the profiles and the number of readings made, or the
    first exception. *)
Fixpoint processAll (clock : Clock) (k : nat) (profiles : list Profile.t)
  : completion (list Output.t * nat) :=
  match profiles with
  | [] => Return ([], k)
  | profile :: rest =>
      let! processedProfile := processProfile (later clock k) profile in
      let! r := processAll clock (k + readingsOf profile) rest in
      Return (processedProfile :: fst r, snd r)
  end.

(** The body of the [try] block once [items] is an array (lines 404-480). *)
Definition respond (clock : Clock) (items : list item) : completion response :=
  let startTime := clock 0%nat in
  let! _ := firstItemKeys items in
  let! filteredItems := filteredItems items in
  let profiles := omap payload filteredItems in
  let! r := processAll clock 1 profiles in
  let outputItems := fst r in
  Return
    (Ok outputItems
       (Meta (length outputItems) (length profiles) (length items)
          (clock (snd r) - startTime))).

(** The handler: a body that is not an array is wrapped in one when it is
    an object other than [null] (lines 392-402); an exception gives the
    status 500 (lines 489-496). *)
Definition processProfiles (clock : Clock) (b : body) : response :=
  let items :=
    match b with
    | Array items => Some items
    | Object Null => None
    | Object it => Some [it]
    | Primitive => None
    end in
  match items with
  | None => BadRequest
  | Some items =>
      match respond clock items with
      | Return response => response
      | Throw e => ServerError e
      end
  end.

(** The profile that an item contributes: the one it wraps when it has
    [urn] and the first item shows the n8n format, the item itself when it
    has [urn] and the first item shows the direct format. *)
Definition kept (n8n : bool) (el : item) : option Profile.t :=
  match el, n8n with
  | Wrapped p, true => if hasUrn p then Some p else None
  | Plain p, false => if hasUrn p then Some p else None
  | _, _ => None
  end.

(** The profiles kept, in the order of the items. *)
Definition profilesOf (items : list item) : list Profile.t :=
  omap (kept (isN8n items)) items.


End Batch.

(** [{ urn: 'u', username: name, supportedLocales: [] }] and the same
    profile without [supportedLocales]. *)
Definition accepted (name : jsstring) : Profile.t := profileOf name (Some []) [].

Definition rejected (name : jsstring) : Profile.t := profileOf name None [].

(** The month of a partial date as [createDateFromPositionDate] reads it,
    counted from 1: July when the month is absent or 0. *)
Definition shownMonth (pd : PositionDate.t) : Z :=
  match PositionDate.month pd with
  | Some m => if m =? 0 then 7 else m
  | None => 7
  end.

(** A string that starts or ends with white space. *)
Definition ragged (text : jsstring) : Prop :=
  (exists c, head text = Some c /\ JSString.isWhiteSpace c = true)
  \/ (exists c, last text = Some c /\ JSString.isWhiteSpace c = true).

(** * Properties *)

(** ** The built-ins on a few inputs *)

Example split_keeps_outer_pieces :
  JSString.split_ws (js" a  b ") = [[]; js"a"; js"b"; []].
Proof. reflexivity. Qed.

Example addWords_once :
  JSString.join (js" ") (addWords (js"Go Go") []) = js"Go".
Proof. reflexivity. Qed.

Example round_half_up :
  JSMath.round (Num (5 # 2)) = JSMath.ofZ 3
  /\ JSMath.round (Num (- 3 # 2)) = JSMath.ofZ (-1).
Proof. split; reflexivity. Qed.

Example month_carries_into_year :
  JSDate.toLocaleDateString (JSDate.make 2020 12 1) = js"Jan 2021"
  /\ JSDate.toLocaleDateString (JSDate.make 2024 1 29) = js"Feb 2024"
  /\ JSDate.toLocaleDateString (JSDate.make 1969 11 31) = js"Dec 1969".
Proof. repeat split; reflexivity. Qed.

Example two_digit_year : JSDate.make 20 6 1 = JSDate.make 1920 6 1.
Proof. reflexivity. Qed.

Example year_out_of_range : JSDate.make 300000 0 1 = JSDate.Invalid.
Proof. reflexivity. Qed.

Example decodeURI_unescapes :
  URI.decodeURI (js"jos%C3%A9%20%2Fx")
  = Return (js"jos" ++ [233%N] ++ js" %2Fx").
Proof. reflexivity. Qed.

Example decodeURI_rejects :
  URI.decodeURI (js"100%") = Throw URIError
  /\ URI.decodeURI (js"%C0%80") = Throw URIError
  /\ URI.decodeURI (js"%ED%A0%80") = Throw URIError.
Proof. repeat split; reflexivity. Qed.

Example dateRange_of_a_past_job :
  JobEntry.dateRange
    (jobEntryOf (JSDate.Time nov2026)
       (dated (js"Dev") (Some (yearMonth 2010 3)) (Some (yearMonth 2012 11))))
  = js"Mar 2010 - Nov 2012".
Proof. reflexivity. Qed.

Example empty_object_raises :
  processProfile (still nov2026) noProfile = Throw TypeError.
Proof. reflexivity. Qed.

Example empty_position_is_defaulted :
  experiencesOf (still nov2026) [] [noPosition]
  = [Experience.Build (js"Unknown Company") [] [] [] [] [] [] []
       [JobEntry.Build [] (Num 0) [] [] []]].
Proof. reflexivity. Qed.

(** ** The loop over the positions *)

Lemma visit_snoc clock kw ps p :
  visitPositions clock kw (ps ++ [p])
  = positionStep clock (visitPositions clock kw ps) p.
Proof. unfold visitPositions. now rewrite fold_left_app. Qed.

Lemma step_reads clock st p :
  Loop.reads (positionStep clock st p) = S (Loop.reads st).
Proof.
  unfold positionStep.
  destruct (Loop.lastCompanyId st) as [last|]; [|reflexivity].
  destruct (JSString.eqb _ last); [|reflexivity].
  now destruct (Loop.currentExperienceEntry st).
Qed.

Lemma visit_reads clock kw ps :
  Loop.reads (visitPositions clock kw ps) = length ps.
Proof.
  induction ps as [|p ps IH] using rev_ind; [reflexivity|].
  rewrite visit_snoc, step_reads, IH, length_app. simpl. lia.
Qed.

Lemma eqb_eq a b : JSString.eqb a b = true <-> a = b.
Proof. unfold JSString.eqb. apply bool_decide_eq_true. Qed.

Lemma eqb_neq a b : JSString.eqb a b = false <-> a <> b.
Proof. unfold JSString.eqb. apply bool_decide_eq_false. Qed.

Lemma alter_last {A} (f : A -> A) (gs : list A) (g : A) :
  alter f (length gs) (gs ++ [g]) = gs ++ [f g].
Proof.
  replace (length gs) with (length gs + 0)%nat by lia.
  now rewrite alter_app_r.
Qed.

(** The step of the loop on a state left by the position [p]: the next
    position [q] joins the last entry when its identifier is that of [p],
    and starts an entry otherwise. *)
Lemma step_after clock k p st q gs g :
  afterPosition clock k p st ->
  Loop.experienceArray st = gs ++ [g] ->
  let job := jobEntryOf (newDate clock (Loop.reads st)) q in
  Loop.experienceArray (positionStep clock st q)
  = if bool_decide (companyIdOf p = companyIdOf q)
    then gs ++ [Experience.pushJob job g]
    else gs ++ [g; newExperienceEntry q job].
Proof.
  intros (Hlast & gs' & g' & Harr & Hcur & _) Harr' job.
  rewrite Harr in Harr'. apply app_inj_tail in Harr' as [-> ->].
  unfold positionStep. rewrite Hlast, Hcur, Harr. fold job.
  case_bool_decide as Hd.
  - rewrite (proj2 (eqb_eq _ _)) by congruence. simpl. apply alter_last.
  - rewrite (proj2 (eqb_neq _ _)) by congruence. simpl.
    now rewrite <- app_assoc.
Qed.

Lemma step_keeps_after clock st q :
  (Loop.experienceArray st = [] /\ Loop.currentExperienceEntry st = None
   \/ exists k p, afterPosition clock k p st) ->
  afterPosition clock (Loop.reads st) q (positionStep clock st q).
Proof.
  intros Hst. unfold afterPosition, positionStep.
  destruct Hst as [[Hnil Hcur] | (k & p & Hlast & gs & g & Harr & Hcur & Hid & Hjob)].
  - rewrite Hnil, Hcur.
    destruct (Loop.lastCompanyId st) as [l|];
      [destruct (JSString.eqb _ l)|]; simpl;
      (split; [reflexivity|]); eexists [], _; simpl; eauto.
  - rewrite Hlast, Hcur, Harr.
    destruct (JSString.eqb _ _) eqn:Heq; simpl; (split; [reflexivity|]).
    + apply eqb_eq in Heq. rewrite alter_last.
      eexists gs, _. split; [reflexivity|]. split; [reflexivity|].
      split; simpl; [congruence | apply last_snoc].
    + eexists (gs ++ [g]), _. repeat split.
Qed.

Lemma visit_after clock kw ps p :
  afterPosition clock (length ps) p (visitPositions clock kw (ps ++ [p])).
Proof.
  revert p. induction ps as [|p' ps IH] using rev_ind; intros p.
  - apply (step_keeps_after clock (Loop.Build kw [] None None 0)). now left.
  - rewrite visit_snoc.
    rewrite <- (visit_reads clock kw (ps ++ [p'])).
    apply step_keeps_after. right. eauto.
Qed.

(** ** The grouping of the positions *)

Lemma experiences_nil clock kw : experiencesOf clock kw [] = [].
Proof. reflexivity. Qed.

Lemma experiences_single clock kw q :
  experiencesOf clock kw [q]
  = [newExperienceEntry q (jobEntryOf (newDate clock 0) q)].
Proof. reflexivity. Qed.

(** The grouping rule, position after position: once [p] has been
    visited, its job is the last job of the last entry; the next position
    [q] is added to that entry when the identifiers of [p] and [q] are
    equal, and starts the next entry otherwise. *)
Lemma experiences_snoc clock kw ps p :
  exists gs g,
    experiencesOf clock kw (ps ++ [p]) = gs ++ [g]
    /\ Experience.companyId g = companyIdOf p
    /\ last (Experience.jobs g) = Some (jobEntryOf (newDate clock (length ps)) p)
    /\ forall q,
         experiencesOf clock kw ((ps ++ [p]) ++ [q])
         = if bool_decide (companyIdOf p = companyIdOf q)
           then gs ++ [Experience.pushJob
                         (jobEntryOf (newDate clock (S (length ps))) q) g]
           else gs ++ [g; newExperienceEntry q
                            (jobEntryOf (newDate clock (S (length ps))) q)].
Proof.
  pose proof (visit_after clock kw ps p) as Hafter.
  pose proof Hafter as (Hlast & gs & g & Harr & Hcur & Hid & Hjob).
  exists gs, g. repeat split; try assumption.
  intros q. unfold experiencesOf. rewrite visit_snoc.
  rewrite (step_after clock (length ps) p _ q gs g Hafter Harr).
  rewrite visit_reads, length_app. simpl.
  now replace (length ps + 1)%nat with (S (length ps)) by lia.
Qed.

Lemma jobsFrom_snoc clock k ps q :
  jobsFrom clock k (ps ++ [q])
  = jobsFrom clock k ps ++ [jobEntryOf (newDate clock (k + length ps)) q].
Proof.
  unfold jobsFrom. rewrite imap_app. simpl.
  now replace (length ps + 0)%nat with (length ps) by lia.
Qed.

Lemma snoc_cases {A} (l : list A) : l = [] \/ exists l' x, l = l' ++ [x].
Proof. destruct l using rev_ind; eauto. Qed.

(** The last entry is the group of a run of positions with one
    identifier: the run starts after a position with another identifier,
    or at the first position, and ends with the position visited last; the
    entry carries the metadata of the first position of the run and holds
    the jobs of the run.  The entries before it are those of the positions
    before the run. *)
Lemma experiences_runs clock kw ps : forall p,
  exists pre first run,
    ps ++ [p] = pre ++ first :: run
    /\ Forall (fun r => orElse (Position.companyId r) []
                        = orElse (Position.companyId first) []) run
    /\ match last pre with
       | Some r => orElse (Position.companyId r) []
                   <> orElse (Position.companyId first) []
       | None => True
       end
    /\ experiencesOf clock kw (ps ++ [p])
       = experiencesOf clock kw pre
         ++ [groupOf first (jobsFrom clock (length pre) (first :: run))].
Proof.
  induction ps as [|p' ps IH] using rev_ind; intros p.
  - exists [], p, []. repeat split. constructor.
  - destruct (IH p') as (pre & first & run & Hsplit & Hrun & Hpre & Hps).
    destruct (experiences_snoc clock kw ps p') as (gs0 & g0 & Hps0 & _ & _ & Hq).
    rewrite Hps in Hps0. apply app_inj_tail in Hps0 as [<- <-].
    rewrite (Hq p). unfold companyIdOf.
    assert (Hlen : S (length ps) = (length pre + S (length run))%nat).
    { apply (f_equal length) in Hsplit. rewrite !length_app in Hsplit.
      simpl in Hsplit. lia. }
    case_bool_decide as Hd.
    + exists pre, first, (run ++ [p]).
      assert (Hp' : orElse (Position.companyId p') []
                    = orElse (Position.companyId first) []).
      { destruct (snoc_cases run) as [-> | (run' & r & ->)].
        - apply app_inj_tail in Hsplit as [_ ->]. reflexivity.
        - change (pre ++ first :: run' ++ [r])
            with (pre ++ (first :: run') ++ [r]) in Hsplit.
          rewrite app_assoc in Hsplit.
          apply app_inj_tail in Hsplit as [_ ->].
          apply Forall_app in Hrun as [_ Hr]. now apply Forall_inv in Hr. }
      split; [rewrite Hsplit; now rewrite <- app_assoc|].
      split; [apply Forall_app; split; [exact Hrun|];
              constructor; [congruence | constructor]|].
      split; [exact Hpre|].
      change (first :: run ++ [p]) with ((first :: run) ++ [p]).
      rewrite jobsFrom_snoc. simpl length. rewrite <- Hlen. reflexivity.
    + exists (ps ++ [p']), p, [].
      split; [reflexivity|]. split; [constructor|].
      split; [rewrite last_snoc; exact Hd|].
      rewrite Hps, <- app_assoc. simpl. unfold jobsFrom. simpl.
      rewrite length_app. simpl.
      now replace (length ps + 1 + 0)%nat with (S (length ps)) by lia.
Qed.

(** Every position leaves exactly one job, and the jobs of the entries,
    read entry after entry, are the jobs of the positions in their order. *)
Lemma experiences_jobs clock kw ps :
  concat (map Experience.jobs (experiencesOf clock kw ps)) = jobsFrom clock 0 ps.
Proof.
  induction ps as [|q ps IH] using rev_ind; [reflexivity|].
  rewrite jobsFrom_snoc. simpl.
  destruct (snoc_cases ps) as [-> | (ps' & p & ->)]; [reflexivity|].
  destruct (experiences_snoc clock kw ps' p) as (gs & g & Hps & _ & _ & Hq).
  rewrite Hq. rewrite Hps in IH. rewrite <- IH.
  rewrite length_app. simpl.
  replace (length ps' + 1)%nat with (S (length ps')) by lia.
  case_bool_decide; rewrite !map_app, !concat_app; simpl;
    rewrite ?app_nil_r, <- ?app_assoc; reflexivity.
Qed.

Lemma experiences_nonempty clock kw ps :
  experiencesOf clock kw ps = [] -> ps = [].
Proof.
  destruct (snoc_cases ps) as [-> | (ps' & p & ->)]; [reflexivity|].
  destruct (experiences_snoc clock kw ps' p) as (gs & g & -> & _).
  intros H. now destruct gs.
Qed.

(** Visiting further positions leaves the entries before the last one as
    they are, and can only add jobs to the last one. *)
Lemma experiences_extend clock kw ps post before g :
  experiencesOf clock kw ps = before ++ [g] ->
  exists g' later jobsAfter,
    experiencesOf clock kw (ps ++ post) = before ++ g' :: later
    /\ Experience.header g' = Experience.header g
    /\ Experience.jobs g' = Experience.jobs g ++ jobsAfter.
Proof.
  intros Hps. induction post as [|q post IH] using rev_ind.
  - exists g, [], []. now rewrite !app_nil_r.
  - destruct IH as (g' & later & jobsAfter & Hall & Hhead & Hjobs).
    rewrite app_assoc.
    destruct (snoc_cases (ps ++ post)) as [Hnil | (ps2 & p2 & Hsnoc)].
    { rewrite Hnil in Hall. now destruct before. }
    rewrite Hsnoc in Hall |- *.
    destruct (experiences_snoc clock kw ps2 p2) as (gs2 & g2 & H2 & _ & _ & Hq).
    rewrite Hq. rewrite Hall in H2. clear Hq Hall.
    destruct (snoc_cases later) as [-> | (later' & l & ->)].
    + apply app_inj_tail in H2 as [<- <-].
      case_bool_decide.
      * eexists _, [], (jobsAfter ++ [_]). split; [reflexivity|].
        split; [exact Hhead|]. simpl. now rewrite Hjobs, <- app_assoc.
      * eexists g', [_], jobsAfter. now split.
    + change (before ++ g' :: later' ++ [l])
        with (before ++ (g' :: later') ++ [l]) in H2.
      rewrite app_assoc in H2. apply app_inj_tail in H2 as [<- <-].
      case_bool_decide.
      * eexists g', (later' ++ [_]), jobsAfter.
        split; [|now split]. now rewrite <- app_assoc.
      * eexists g', (later' ++ [l; _]), jobsAfter.
        split; [|now split]. now rewrite <- app_assoc.
Qed.

(** A position lacks a company identifier when [pos.companyId] is falsy:
    absent or empty; [companyId] is then the empty string. *)
Lemma lacking_companyId pos :
  truthyStr (Position.companyId pos) = false <-> companyIdOf pos = [].
Proof.
  unfold companyIdOf. destruct (Position.companyId pos) as [[|c s]|]; simpl;
    split; congruence.
Qed.

(** A run of positions without identifier ends up in one entry, the last
    one once the run has been visited. *)
Lemma run_group clock kw pre first rest :
  Forall (fun pos => truthyStr (Position.companyId pos) = false) (first :: rest) ->
  exists before g jobsBefore,
    experiencesOf clock kw (pre ++ first :: rest) = before ++ [g]
    /\ Experience.companyId g = []
    /\ Experience.jobs g
       = jobsBefore ++ jobsFrom clock (length pre) (first :: rest)
    /\ (match last pre with
        | Some p => truthyStr (Position.companyId p) = true
        | None => True
        end ->
        before = experiencesOf clock kw pre
        /\ jobsBefore = []
        /\ Experience.header g
           = Experience.header
               (newExperienceEntry first
                  (jobEntryOf (newDate clock (length pre)) first))).
Proof.
  induction rest as [|r rest IH] using rev_ind; intros Hrun.
  - apply Forall_inv in Hrun. apply lacking_companyId in Hrun.
    unfold jobsFrom. simpl. rewrite Nat.add_0_r.
    destruct (snoc_cases pre) as [-> | (pre' & p & ->)].
    + exists [], (newExperienceEntry first (jobEntryOf (newDate clock 0) first)), [].
      simpl. repeat split; assumption.
    + destruct (experiences_snoc clock kw pre' p) as (gs & g & Hpre & Hid & _ & Hq).
      change ((pre' ++ [p]) ++ [first]) with ((pre' ++ [p]) ++ [first]).
      rewrite Hq, length_app. simpl.
      replace (length pre' + 1)%nat with (S (length pre')) by lia.
      case_bool_decide as Hsame.
      * eexists gs, _, (Experience.jobs g). split; [reflexivity|].
        split; [simpl; congruence|]. split; [reflexivity|].
        rewrite last_snoc. intros Hp.
        assert (truthyStr (Position.companyId p) = false) as Hp'
          by (apply lacking_companyId; congruence).
        congruence.
      * eexists (gs ++ [g]), _, []. rewrite <- app_assoc. split; [reflexivity|].
        split; [exact Hrun|]. split; [reflexivity|].
        intros _. now rewrite Hpre.
  - rewrite app_comm_cons in Hrun. apply Forall_app in Hrun as [Hrun Hr].
    apply Forall_inv in Hr. apply lacking_companyId in Hr.
    destruct (IH Hrun) as (before & g & jobsBefore & Hall & Hid & Hjobs & Hleft).
    rewrite app_comm_cons, app_assoc.
    destruct (snoc_cases (pre ++ first :: rest)) as [Hnil | (ps & p & Hsnoc)].
    { now destruct pre. }
    assert (Hp : companyIdOf p = []).
    { apply lacking_companyId.
      assert (Hin : p ∈ first :: rest).
      { destruct (snoc_cases rest) as [-> | (rest' & x & ->)].
        - apply app_inj_tail in Hsnoc as [_ <-]. apply elem_of_cons. now left.
        - rewrite app_comm_cons, app_assoc in Hsnoc.
          apply app_inj_tail in Hsnoc as [_ <-].
          rewrite app_comm_cons. apply elem_of_app. right.
          apply elem_of_cons. now left. }
      rewrite Forall_forall in Hrun. now apply Hrun. }
    destruct (experiences_snoc clock kw ps p) as (gs & g0 & Hps & _ & _ & Hq).
    rewrite Hsnoc in Hall |- *. rewrite Hq.
    rewrite Hall in Hps. apply app_inj_tail in Hps as [<- <-].
    rewrite bool_decide_eq_true_2 by congruence.
    eexists before, _, jobsBefore. split; [reflexivity|].
    split; [exact Hid|]. split; [|exact Hleft].
    simpl. rewrite Hjobs, app_comm_cons, jobsFrom_snoc, <- app_assoc.
    do 3 f_equal.
    assert (length (ps ++ [p]) = length (pre ++ first :: rest)) as Hlen
      by now rewrite Hsnoc.
    rewrite !length_app in Hlen. simpl in *.
    now replace (S (length ps)) with (length pre + S (length rest))%nat by lia.
Qed.

(** ** Strings *)

Lemma startsWith_spec w s :
  JSString.startsWith w s = true <-> exists post, s = w ++ post.
Proof.
  revert s. induction w as [|a w IH]; intros s; simpl.
  - split; [eauto | reflexivity].
  - destruct s as [|b s].
    + split; [discriminate | intros [post H]; discriminate].
    + rewrite andb_true_iff, N.eqb_eq, IH. split.
      * intros [-> [post ->]]. eauto.
      * intros [post H]. injection H as -> ->. eauto.
Qed.

(** [includes] is containment as a substring. *)
Lemma includes_spec s w :
  JSString.includes s w = true <-> exists pre post, s = pre ++ w ++ post.
Proof.
  induction s as [|c s IH]; simpl; rewrite orb_true_iff, startsWith_spec.
  - split.
    + intros [[post H] | H]; [exists [], post; exact H | discriminate].
    + intros (pre & post & H). left. destruct pre; [eauto | discriminate].
  - rewrite IH. split.
    + intros [[post H] | (pre & post & ->)].
      * exists [], post. exact H.
      * exists (c :: pre), post. reflexivity.
    + intros (pre & post & H). destruct pre as [|c' pre].
      * left. eauto.
      * right. injection H as _ ->. eauto.
Qed.

(** ** Numbers and dates *)

Lemma inject_Z_sub a b : (inject_Z a - inject_Z b == inject_Z (a - b))%Q.
Proof. unfold Qminus, Z.sub. now rewrite inject_Z_plus, inject_Z_opp. Qed.

Lemma inject_Z_le a b : a <= b -> (inject_Z a <= inject_Z b)%Q.
Proof. now rewrite <- Zle_Qle. Qed.

Lemma inject_Z_le_inv a b : (inject_Z a <= inject_Z b)%Q -> a <= b.
Proof. now rewrite <- Zle_Qle. Qed.

Lemma inject_Z_lt a b : a < b -> (inject_Z a < inject_Z b)%Q.
Proof. now rewrite <- Zlt_Qlt. Qed.

Lemma msPerMonth_value : (msPerMonth == inject_Z 2592000000)%Q.
Proof. reflexivity. Qed.

Lemma Qle_div_inject k n d :
  0 < d -> (inject_Z k <= inject_Z n / inject_Z d)%Q <-> k * d <= n.
Proof.
  intros Hd.
  assert (Hpos : (0 < inject_Z d)%Q) by (now apply (inject_Z_lt 0 d)).
  split; intros H.
  - apply (Qmult_le_compat_r _ _ (inject_Z d)) in H; [|now apply Qlt_le_weak].
    rewrite (Qmult_comm (_ / _)), Qmult_div_r in H.
    + rewrite <- inject_Z_mult in H. now apply inject_Z_le_inv in H.
    + intros E. rewrite E in Hpos. now apply Qlt_irrefl in Hpos.
  - apply Qle_shift_div_l; [exact Hpos|].
    rewrite <- inject_Z_mult. now apply inject_Z_le.
Qed.

(** A duration is at least seven months of thirty days exactly when the
    two time values lie that many milliseconds apart. *)
Lemma duration_geb_7 s e :
  JSMath.geb (durationMonths (JSDate.Time s) (JSDate.Time e)) 7
  = (7 * 2592000000 <=? e - s).
Proof.
  unfold durationMonths, JSMath.geb, JSMath.max0, JSMath.divc, JSMath.sub.
  simpl JSDate.valueOf. unfold JSMath.ofZ.
  set (x := ((inject_Z e - inject_Z s) / msPerMonth)%Q).
  assert (Hx : forall k, (inject_Z k <= x)%Q <-> k * 2592000000 <= e - s).
  { intros k. unfold x. rewrite inject_Z_sub, msPerMonth_value.
    apply Qle_div_inject. lia. }
  destruct (Qle_bool x 0) eqn:H0.
  - apply Qle_bool_iff in H0.
    assert (~ 1 * 2592000000 <= e - s).
    { intros H1. apply Hx in H1. apply (Qle_trans _ _ _ H1) in H0.
      apply (inject_Z_le_inv 1 0) in H0. lia. }
    symmetry. apply Z.leb_gt. lia.
  - destruct (7 * 2592000000 <=? e - s) eqn:H7.
    + apply Z.leb_le, Hx in H7. now apply Qle_bool_iff.
    + apply Z.leb_gt in H7. apply not_true_is_false. intros H.
      apply Qle_bool_iff, (Hx 7) in H. lia.
Qed.

Lemma date_ltb_time a b :
  JSDate.ltb (JSDate.Time a) (JSDate.Time b) = (a <? b).
Proof.
  unfold JSDate.ltb, JSMath.ltb. simpl. unfold JSMath.ofZ.
  destruct (a <? b) eqn:H.
  - apply Z.ltb_lt in H. apply negb_true_iff, not_true_is_false.
    intros H'. apply Qle_bool_iff, inject_Z_le_inv in H'. lia.
  - apply Z.ltb_ge in H. apply negb_false_iff, Qle_bool_iff.
    now apply inject_Z_le.
Qed.

(** Rounding a quotient of a time difference. *)
Lemma round_sub a b d :
  JSMath.round (JSMath.divc (JSMath.sub (JSMath.ofZ a) (JSMath.ofZ b)) d)
  = JSMath.round (JSMath.divc (JSMath.ofZ (a - b)) d).
Proof.
  unfold JSMath.round, JSMath.divc, JSMath.sub, JSMath.ofZ. do 2 f_equal.
  apply Qfloor_comp. now rewrite inject_Z_sub.
Qed.

Lemma Qfloor_half_nonneg n d :
  0 <= n -> (0 < d)%Q -> 0 <= Qfloor (inject_Z n / d + (1 # 2)).
Proof.
  intros Hn Hd.
  change 0 with (Qfloor 0). apply Qfloor_resp_le.
  apply Qle_trans with (inject_Z n / d)%Q.
  - apply Qle_shift_div_l; [exact Hd|]. rewrite Qmult_0_l.
    now apply (inject_Z_le 0 n).
  - rewrite <- (Qplus_0_r (_ / _)) at 1. apply Qplus_le_r. easy.
Qed.

(** [Math.round] of a quotient of integers, in integer arithmetic. *)
Lemma Qfloor_half n (d : positive) :
  Qfloor (inject_Z n / inject_Z (Z.pos d) + (1 # 2))
  = (2 * n + Z.pos d) / (2 * Z.pos d).
Proof.
  unfold Qdiv, Qinv, Qmult, Qplus, inject_Z, Qfloor. simpl.
  f_equal; lia.
Qed.

Lemma round_months n :
  JSMath.round (JSMath.divc (JSMath.ofZ n) msPerMonth)
  = JSMath.ofZ ((2 * n + 2592000000) / 5184000000).
Proof.
  unfold JSMath.round, JSMath.divc, JSMath.ofZ. do 2 f_equal.
  transitivity (Qfloor (inject_Z n / inject_Z 2592000000 + (1 # 2)));
    [|now rewrite Qfloor_half].
  apply Qfloor_comp. now rewrite msPerMonth_value.
Qed.

Lemma round_years n :
  JSMath.round (JSMath.divc (JSMath.ofZ n) msPerYear)
  = JSMath.ofZ ((2 * n + 31557600000) / 63115200000).
Proof.
  unfold JSMath.round, JSMath.divc, JSMath.ofZ. do 2 f_equal.
  transitivity (Qfloor (inject_Z n / inject_Z 31557600000 + (1 # 2)));
    [|now rewrite Qfloor_half].
  apply Qfloor_comp.
  assert (msPerYear == inject_Z 31557600000)%Q as -> by reflexivity.
  reflexivity.
Qed.

Lemma Qdiv_nonpos n (d : positive) :
  (inject_Z n / inject_Z (Z.pos d) <= 0)%Q <-> n <= 0.
Proof.
  unfold Qdiv, Qinv, Qmult, Qle, inject_Z. simpl. lia.
Qed.

(** The rounded duration between two time values, in integer
    arithmetic. *)
Lemma duration_round s e :
  JSMath.round (durationMonths (JSDate.Time s) (JSDate.Time e))
  = JSMath.ofZ
      (if e <=? s then 0 else (2 * (e - s) + 2592000000) / 5184000000).
Proof.
  unfold durationMonths, JSMath.max0, JSMath.divc, JSMath.sub.
  simpl JSDate.valueOf. unfold JSMath.ofZ at 1 2.
  assert (Hx : (((inject_Z e - inject_Z s) / msPerMonth)
                == inject_Z (e - s) / inject_Z 2592000000)%Q)
    by now rewrite inject_Z_sub, msPerMonth_value.
  destruct (Qle_bool _ 0) eqn:H0.
  - apply Qle_bool_iff in H0. rewrite Hx in H0. apply Qdiv_nonpos in H0.
    rewrite (proj2 (Z.leb_le e s)) by lia. reflexivity.
  - assert (~ e - s <= 0) as Hpos.
    { intros H. apply (Qdiv_nonpos _ 2592000000) in H. rewrite <- Hx in H.
      apply Qle_bool_iff in H. congruence. }
    rewrite (proj2 (Z.leb_gt e s)) by lia.
    rewrite <- round_months. unfold JSMath.round, JSMath.divc, JSMath.ofZ.
    do 2 f_equal. apply Qfloor_comp. now rewrite Hx, msPerMonth_value.
Qed.

(** The two rounded quotients of [processProfile] as [nearest] gives
    them. *)
Lemma round_years_nearest n :
  JSMath.round (JSMath.divc (JSMath.ofZ n) msPerYear)
  = JSMath.ofZ (nearest n yearLength).
Proof. apply round_years. Qed.

Lemma duration_nearest s e :
  JSMath.round (durationMonths (JSDate.Time s) (JSDate.Time e))
  = JSMath.ofZ (monthsBetween s e).
Proof. apply duration_round. Qed.

(** ** The seniority *)

(** The end date of [qualifyingStart] is the one of lines 97 and 164. *)
Lemma qualifyingStart_endDate now pos :
  qualifyingStart now pos
  = if isExcludedPosition pos then None
    else
      match createDateFromPositionDate (Position.start pos),
            endDateOf pos (JSDate.Time now) with
      | Some (JSDate.Time s), JSDate.Time e =>
          if sevenMonths <=? e - s then Some s else None
      | _, _ => None
      end.
Proof.
  unfold qualifyingStart, endDateOf.
  destruct (isExcludedPosition pos); [reflexivity|].
  destruct (createDateFromPositionDate (Position.start pos)) as [[|s]|];
    destruct (createDateFromPositionDate (Position.end_ pos)) as [[|e]|];
    reflexivity.
Qed.

Lemma seniorityStep_qualifying now acc pos :
  isExcludedPosition pos = false ->
  seniorityStep (JSDate.Time now) acc pos
  = match qualifyingStart now pos with
    | Some s => earlier acc s
    | None => acc
    end.
Proof.
  intros Hex. rewrite qualifyingStart_endDate. unfold seniorityStep.
  rewrite Hex.
  destruct (createDateFromPositionDate (Position.start pos)) as [[|s]|];
    [| |reflexivity];
    (destruct (endDateOf pos (JSDate.Time now)) as [|e]; [reflexivity|]).
  - reflexivity.
  - rewrite duration_geb_7. unfold sevenMonths, JSDate.msPerDay.
    change (7 * (30 * 86400000)) with (7 * 2592000000).
      now destruct (7 * 2592000000 <=? e - s).
Qed.

Lemma earliest_fold now positions acc :
  fold_left (seniorityStep (JSDate.Time now)) (relevantPositions positions) acc
  = fold_left earlier (qualifyingStarts now positions) acc.
Proof.
  revert acc. induction positions as [|pos positions IH]; intros acc;
    [reflexivity|].
  unfold relevantPositions, qualifyingStarts in *. simpl.
  destruct (isExcludedPosition pos) eqn:Hex; simpl.
  - rewrite qualifyingStart_endDate. rewrite Hex. apply IH.
  - rewrite seniorityStep_qualifying by exact Hex.
    destruct (qualifyingStart now pos); simpl; apply IH.
Qed.

(** The fold keeps a least element. *)
Lemma earlier_fold_least starts : forall acc,
  (acc = None \/ exists a, acc = Some (JSDate.Time a)) ->
  match fold_left earlier starts acc with
  | None => acc = None /\ starts = []
  | Some d =>
      exists m, d = JSDate.Time m
        /\ (acc = Some (JSDate.Time m) \/ m ∈ starts)
        /\ (forall a, acc = Some (JSDate.Time a) -> m <= a)
        /\ (forall s, s ∈ starts -> m <= s)
  end.
Proof.
  induction starts as [|s starts IH]; intros acc Hacc; simpl.
  - destruct Hacc as [-> | [a ->]]; [now split|].
    exists a. repeat split.
    + now left.
    + intros a' [= ->]. lia.
    + intros s Hs. now apply elem_of_nil in Hs.
  - assert (Hstep : exists b, earlier acc s = Some (JSDate.Time b)
                       /\ b <= s /\ (b = s \/ acc = Some (JSDate.Time b))
                       /\ forall a, acc = Some (JSDate.Time a) -> b <= a).
    { destruct Hacc as [-> | [a ->]]; simpl.
      - exists s. repeat split; [lia | now left | discriminate].
      - rewrite date_ltb_time. destruct (s <? a) eqn:Hlt.
        + apply Z.ltb_lt in Hlt. exists s. repeat split; [lia | now left |].
          intros a' [= ->]. lia.
        + apply Z.ltb_ge in Hlt. exists a. repeat split; [lia | now right |].
          intros a' [= ->]. lia. }
    destruct Hstep as (b & Hb & Hbs & Hfrom & Hba).
    specialize (IH (earlier acc s)). rewrite Hb in IH |- *.
    specialize (IH (or_intror (ex_intro _ b eq_refl))).
    destruct (fold_left earlier starts (Some (JSDate.Time b))) as [d|].
    + destruct IH as (m & -> & Hm & Hmb & Hall).
      specialize (Hmb b eq_refl).
      exists m. repeat split.
      * destruct Hm as [[= <-] | Hm].
        -- destruct Hfrom as [-> | ->]; [right; apply elem_of_cons; now left | now left].
        -- right. apply elem_of_cons. now right.
      * intros a Ha. specialize (Hba a Ha). lia.
      * intros s' Hs'. apply elem_of_cons in Hs' as [-> | Hs']; [lia | now apply Hall].
    + now destruct IH.
Qed.

(** The years of experience, from the starts that count. *)
Lemma yearsOfExperience_spec now positions :
  (qualifyingStarts now positions = []
   /\ yearsOfExperience (JSDate.Time now) positions = Num 99)
  \/ (exists m,
        m ∈ qualifyingStarts now positions
        /\ (forall s, s ∈ qualifyingStarts now positions -> m <= s)
        /\ yearsOfExperience (JSDate.Time now) positions
           = JSMath.round (JSMath.divc (JSMath.ofZ (now - m)) msPerYear)).
Proof.
  unfold yearsOfExperience, earliestRelevantStartDate. rewrite earliest_fold.
  pose proof (earlier_fold_least (qualifyingStarts now positions) None
                (or_introl eq_refl)) as H.
  destruct (fold_left earlier (qualifyingStarts now positions) None) as [d|].
  - destruct H as (m & -> & [Hm | Hm] & _ & Hall); [discriminate|].
    right. exists m. repeat split; [exact Hm | exact Hall |].
    simpl JSDate.valueOf. apply round_sub.
  - left. now destruct H.
Qed.

(** ** The readings of the clock *)

Lemma step_clock_ext c1 c2 st p :
  c1 (Loop.reads st) = c2 (Loop.reads st) ->
  positionStep c1 st p = positionStep c2 st p.
Proof. intros H. unfold positionStep, newDate. now rewrite H. Qed.

(** The loop reads the clock once for each position and not beyond. *)
Lemma visit_clock_ext c1 c2 kw ps :
  (forall k, (k < length ps)%nat -> c1 k = c2 k) ->
  visitPositions c1 kw ps = visitPositions c2 kw ps.
Proof.
  induction ps as [|p ps IH] using rev_ind; intros H; [reflexivity|].
  rewrite !visit_snoc, IH.
  - apply step_clock_ext. rewrite visit_reads. apply H.
    rewrite length_app. simpl. lia.
  - intros k Hk. apply H. rewrite length_app. simpl. lia.
Qed.

(** ** [decodeURI] and the prefix of the URL *)

Lemma tokens_units p u :
  forallb (fun c => negb (c =? 37)%N) p = true ->
  URI.tokens (p ++ u) = option_map (app (map URI.Unit p)) (URI.tokens u).
Proof.
  induction p as [|c p IH]; simpl; intros H.
  - now destruct (URI.tokens u).
  - apply andb_true_iff in H as [Hc Hp]. apply negb_true_iff in Hc.
    rewrite Hc, (IH Hp). now destruct (URI.tokens u).
Qed.

Lemma decode_units p ts :
  URI.decode (map URI.Unit p ++ ts) = option_map (app p) (URI.decode ts).
Proof.
  induction p as [|c p IH]; simpl.
  - now destruct (URI.decode ts).
  - rewrite IH. now destruct (URI.decode ts).
Qed.

(** A prefix without [%] goes through [decodeURI] as it is and does not
    change whether the rest decodes. *)
Lemma decodeURI_prefix p u :
  forallb (fun c => negb (c =? 37)%N) p = true ->
  URI.decodeURI (p ++ u)
  = match URI.decodeURI u with
    | Return r => Return (p ++ r)
    | Throw e => Throw e
    end.
Proof.
  intros Hp. unfold URI.decodeURI. rewrite (tokens_units p u Hp).
  destruct (URI.tokens u) as [ts|]; simpl; [|reflexivity].
  rewrite decode_units. now destruct (URI.decode ts).
Qed.

Lemma decodeURI_throws u e : URI.decodeURI u = Throw e -> e = URIError.
Proof.
  unfold URI.decodeURI. destruct (URI.tokens u) as [ts|]; [|congruence].
  destruct (URI.decode ts); congruence.
Qed.

(** ** The outcome of [processProfile] *)

Lemma namesOf_returns l names :
  namesOf l = Return names <-> (None ∉ l) /\ names = map nameOf l.
Proof.
  revert names. induction l as [|[el|] l IH]; intros names; simpl.
  - split.
    + intros [= <-]. split; [apply not_elem_of_nil | reflexivity].
    + intros [_ ->]. reflexivity.
  - destruct (namesOf l) as [names'|e]; cbn [bind].
    + destruct (IH names') as [IH1 _]. destruct (IH1 eq_refl) as [Hl ->].
      split.
      * intros [= <-]. split; [|reflexivity].
        intros [H | H]%elem_of_cons; [discriminate | contradiction].
      * intros [_ ->]. reflexivity.
    + split; [discriminate|]. intros [Hl _].
      assert (Hnone : None ∉ l)
        by (intros H; apply Hl; now apply list_elem_of_further).
      destruct (IH (map nameOf l)) as [_ IH2].
      now specialize (IH2 (conj Hnone eq_refl)).
  - split; [discriminate|]. intros [Hl _]. exfalso. apply Hl.
    apply list_elem_of_here.
Qed.

Lemma namesOf_throws l e :
  namesOf l = Throw e <-> (None ∈ l) /\ e = TypeError.
Proof.
  revert e. induction l as [|[el|] l IH]; intros e; simpl.
  - split; [discriminate|]. intros [H _]. now apply elem_of_nil in H.
  - destruct (namesOf l) as [names'|e'] eqn:Hl; cbn [bind].
    + split; [discriminate|]. intros [[H | H]%elem_of_cons He];
        [discriminate|].
      destruct (IH e) as [_ IH2]. now specialize (IH2 (conj H He)).
    + destruct (IH e') as [IH1 _]. destruct (IH1 eq_refl) as [H ->].
      split.
      * intros [= <-]. split; [now apply list_elem_of_further | reflexivity].
      * intros [_ ->]. reflexivity.
  - split.
    + intros [= <-]. split; [apply list_elem_of_here | reflexivity].
    + intros [_ ->]. reflexivity.
Qed.

Lemma languagesOf_absent profile :
  Profile.supportedLocales profile = None ->
  languagesOf profile = Throw TypeError.
Proof.
  intros H. unfold languagesOf, firstLocaleCountry. rewrite H.
  destruct (Profile.languages profile) as [[|e l]|]; try reflexivity.
  destruct (namesOf (e :: l)) as [names|e'] eqn:Hn; [reflexivity|].
  apply namesOf_throws in Hn as [_ ->]. reflexivity.
Qed.

Lemma languagesOf_null profile :
  None ∈ default [] (Profile.languages profile) ->
  languagesOf profile = Throw TypeError.
Proof.
  intros H. unfold languagesOf.
  destruct (Profile.languages profile) as [[|e l]|]; simpl in H;
    try now apply elem_of_nil in H.
  now rewrite (proj2 (namesOf_throws (e :: l) TypeError) (conj H eq_refl)).
Qed.

Lemma languagesOf_present profile locales :
  Profile.supportedLocales profile = Some locales ->
  (None ∉ default [] (Profile.languages profile)) ->
  exists languages, languagesOf profile = Return languages.
Proof.
  intros H Hnull. unfold languagesOf, firstLocaleCountry. rewrite H.
  destruct (Profile.languages profile) as [[|e l]|]; simpl in Hnull;
    [| rewrite (proj2 (namesOf_returns (e :: l) _) (conj Hnull eq_refl)) |];
    destruct locales as [|loc locales];
    simpl; eauto;
    destruct (oneOf [js"FR"] _); simpl; eauto;
    destruct (oneOf [js"US"; js"EN"] _); simpl; eauto.
Qed.

(** [output.skills] (line 304). *)
Lemma skills_present profile :
  (None ∉ default [] (Profile.skills profile)) ->
  exists skills,
    match Profile.skills profile with
    | Some l =>
        let! names := namesOf l in
        Return (Some (SkillsOut.Build names l))
    | None => Return None
    end = Return skills.
Proof.
  intros Hnull. destruct (Profile.skills profile) as [l|]; simpl in Hnull;
    [|eauto].
  rewrite (proj2 (namesOf_returns l _) (conj Hnull eq_refl)). simpl. eauto.
Qed.

Lemma skills_null profile :
  None ∈ default [] (Profile.skills profile) ->
  match Profile.skills profile with
  | Some l =>
      let! names := namesOf l in
      Return (Some (SkillsOut.Build names l))
  | None => Return None
  end = Throw TypeError.
Proof.
  intros H. destruct (Profile.skills profile) as [l|]; simpl in H;
    [|now apply elem_of_nil in H].
  now rewrite (proj2 (namesOf_throws l TypeError) (conj H eq_refl)).
Qed.

(** The two fields of the output that the loop and the seniority give. *)
Lemma processProfile_returns clock profile out :
  processProfile clock profile = Return out ->
  Output.experiences out
  = experiencesOf clock (profileKeywords profile) (positionsOf profile)
  /\ Output.years_of_experience out
     = yearsOfExperience
         (newDate clock (length (positionsOf profile))) (positionsOf profile).
Proof.
  unfold processProfile.
  destruct (languagesOf profile) as [languages|]; [|discriminate].
  cbn [bind].
  match goal with
  | |- context [bind ?x] => destruct x as [skills|]
  end; [|discriminate].
  cbn [bind].
  destruct (URI.decodeURI (toString _)) as [id|]; [|discriminate].
  cbn [bind].
  match goal with
  | |- context [URI.decodeURI ?x] => destruct (URI.decodeURI x) as [url|]
  end; [|discriminate].
  cbn [bind]. intros [= <-]. cbn [Output.experiences Output.years_of_experience].
  rewrite visit_reads. now split.
Qed.

(** A list with or without a [null] element. *)
Lemma null_or_not {A} (l : list (option A)) : None ∈ l \/ None ∉ l.
Proof.
  induction l as [|[a|] l IH].
  - right. apply not_elem_of_nil.
  - destruct IH as [H | H]; [left; now apply list_elem_of_further|].
    right. intros [? | ?]%elem_of_cons; [discriminate | contradiction].
  - left. apply list_elem_of_here.
Qed.

(** [processProfile] returns a record when [supportedLocales] is an array,
    no element of [skills] or of [languages] is [null], and the user name
    decodes. *)
Lemma processProfile_total clock profile locales id :
  Profile.supportedLocales profile = Some locales ->
  (None ∉ default [] (Profile.skills profile)) ->
  (None ∉ default [] (Profile.languages profile)) ->
  URI.decodeURI (toString (Profile.username profile)) = Return id ->
  exists out, processProfile clock profile = Return out
    /\ Output.public_linkedin_identifier out = id
    /\ Output.linkedin_url out = js"https://linkedin.com/in/" ++ id.
Proof.
  intros Hloc Hskills Hlang Hid. unfold processProfile.
  destruct (languagesOf_present profile locales Hloc Hlang) as [languages ->].
  destruct (skills_present profile Hskills) as [skills ->].
  rewrite decodeURI_prefix by reflexivity. rewrite Hid. simpl.
  eexists. split; [reflexivity|]. now split.
Qed.

(** The exceptions of [processProfile]: a [TypeError] when
    [supportedLocales] is absent or an element of [skills] or of
    [languages] is [null]; otherwise a [URIError] when the user name does
    not decode. *)
Lemma processProfile_throws clock profile e :
  processProfile clock profile = Throw e <->
  ((Profile.supportedLocales profile = None
    \/ None ∈ default [] (Profile.skills profile)
    \/ None ∈ default [] (Profile.languages profile))
   /\ e = TypeError)
  \/ (Profile.supportedLocales profile <> None
      /\ (None ∉ default [] (Profile.skills profile))
      /\ (None ∉ default [] (Profile.languages profile))
      /\ e = URIError
      /\ URI.decodeURI (toString (Profile.username profile)) = Throw URIError).
Proof.
  destruct (Profile.supportedLocales profile) as [locales|] eqn:Hloc;
    [destruct (null_or_not (default [] (Profile.languages profile)))
       as [Hlang | Hlang];
     [|destruct (null_or_not (default [] (Profile.skills profile)))
         as [Hskills | Hskills]]|].
  - assert (processProfile clock profile = Throw TypeError) as ->.
    { unfold processProfile. now rewrite languagesOf_null. }
    split.
    + intros [= <-]. left. split; [auto | reflexivity].
    + intros [[_ ->] | (_ & _ & ? & _)]; [reflexivity | contradiction].
  - assert (processProfile clock profile = Throw TypeError) as ->.
    { unfold processProfile.
      destruct (languagesOf_present profile locales Hloc Hlang) as [languages ->].
      cbn [bind]. now rewrite skills_null. }
    split.
    + intros [= <-]. left. split; [auto | reflexivity].
    + intros [[_ ->] | (_ & ? & _)]; [reflexivity | contradiction].
  - destruct (URI.decodeURI (toString (Profile.username profile))) as [id|e']
      eqn:Hid.
    + destruct (processProfile_total clock profile locales id Hloc Hskills
                  Hlang Hid) as (out & -> & _).
      split; [discriminate|].
      intros [[[? | [? | ?]] _] | (_ & _ & _ & _ & ?)];
        [discriminate | contradiction | contradiction | discriminate].
    + pose proof (decodeURI_throws _ _ Hid) as ->.
      assert (processProfile clock profile = Throw URIError) as ->.
      { unfold processProfile.
        destruct (languagesOf_present profile locales Hloc Hlang)
          as [languages ->].
        destruct (skills_present profile Hskills) as [skills ->].
        simpl. now rewrite Hid. }
      split.
      * intros [= <-]. right. now repeat split.
      * intros [[[? | [? | ?]] _] | (_ & _ & _ & -> & _)];
          [discriminate | contradiction | contradiction | reflexivity].
  - assert (processProfile clock profile = Throw TypeError) as ->.
    { unfold processProfile. now rewrite languagesOf_absent. }
    split.
    + intros [= <-]. left. split; [auto | reflexivity].
    + intros [[_ ->] | (H & _)]; [reflexivity | congruence].
Qed.

(** * The claims of the design document *)

(** ** C8: the reconstruction of a date *)

(** C8.  For a partial date [{ year, month, day }],
    [createDateFromPositionDate] returns [null] exactly when the year is
    absent or zero; otherwise it builds the date of that year whose
    zero-based month is 6 (July) when the month is absent or zero and the
    given month minus one when it is not, and whose day is 1 when the day
    is absent or zero and the given day when it is not.  So [{ year: 2020 }]
    resolves to the 1st of July 2020, 00:00. *)
Theorem createDate_reconstruction (pd : PositionDate.t) :
  (createDateFromPositionDate (Some pd) = None
   <-> PositionDate.year pd = None \/ PositionDate.year pd = Some 0)
  /\ (forall y, PositionDate.year pd = Some y -> y <> 0 ->
      exists m d,
        createDateFromPositionDate (Some pd) = Some (JSDate.make y m d)
        /\ (PositionDate.month pd = None \/ PositionDate.month pd = Some 0 -> m = 6)
        /\ (forall k, PositionDate.month pd = Some k -> k <> 0 -> m = k - 1)
        /\ (PositionDate.day pd = None \/ PositionDate.day pd = Some 0 -> d = 1)
        /\ (forall k, PositionDate.day pd = Some k -> k <> 0 -> d = k))
  /\ createDateFromPositionDate (Some (yearOnly 2020))
     = Some (JSDate.Time 1593561600000)
  /\ JSDate.YearFromTime 1593561600000 = 2020
  /\ JSDate.MonthFromTime 1593561600000 = 6
  /\ JSDate.DateFromTime 1593561600000 = 1
  /\ 1593561600000 mod JSDate.msPerDay = 0.
Proof.
  split; [|split; [|repeat split; reflexivity]].
  - unfold createDateFromPositionDate.
    destruct (PositionDate.year pd) as [[|y|y]|]; simpl; split;
      try discriminate; try tauto; intros [H|H]; discriminate.
  - intros y Hy Hy0. unfold createDateFromPositionDate. rewrite Hy.
    assert (truthyNum (Some y) = Some y) as -> by now destruct y.
    eexists _, _. split; [reflexivity|].
    destruct (PositionDate.month pd) as [[|m|m]|],
             (PositionDate.day pd) as [[|d|d]|]; simpl;
      repeat split; try reflexivity;
      try (intros [H|H]; discriminate);
      try (intros k [= <-] Hk; try reflexivity; now destruct Hk);
      try (intros k H; discriminate).
Qed.

(** ** C2: the positions left out of the seniority *)

(** C2, counterexample.  The position [{ title: 'Intern' }] has one of the
    four words in its title, and it is not excluded: it stays among the
    relevant positions. *)
Lemma intern_title_is_kept :
  mentionsExcludedWord internByTitle = true
  /\ isExcludedPosition internByTitle = false
  /\ relevantPositions [internByTitle] = [internByTitle].
Proof. repeat split; reflexivity. Qed.

Lemma isExcludedPosition_spec pos :
  isExcludedPosition pos = true <->
  substring (js"intern") (lowered (Position.employmentType pos))
  \/ substring (js"volunteer") (lowered (Position.employmentType pos))
  \/ substring (js"stagiaire") (lowered (Position.title pos))
  \/ substring benevole (lowered (Position.title pos)).
Proof.
  unfold isExcludedPosition, substring.
  assert (Hlow : forall v,
    match v with
    | Some (c :: s) => JSString.toLowerCase (c :: s)
    | _ => []
    end = lowered v) by (now intros [[|c s]|]).
  rewrite !Hlow, !orb_true_iff, !includes_spec. tauto.
Qed.

(** C2, amended.  A position is left out of the seniority exactly when its
    employment type, in lower case, contains "intern" or "volunteer", or
    its title, in lower case, contains "stagiaire" or "bénévole"; the
    match is containment as a substring. *)
Theorem relevantPositions_spec (positions : list Position.t) (pos : Position.t) :
  pos ∈ relevantPositions positions <->
  pos ∈ positions
  /\ ~ (substring (js"intern") (lowered (Position.employmentType pos))
        \/ substring (js"volunteer") (lowered (Position.employmentType pos))
        \/ substring (js"stagiaire") (lowered (Position.title pos))
        \/ substring benevole (lowered (Position.title pos))).
Proof.
  unfold relevantPositions.
  rewrite !list_elem_of_In, filter_In, negb_true_iff,
    <- isExcludedPosition_spec, not_true_iff_false.
  reflexivity.
Qed.

(** ** C3: the date range of a job *)

(** C3, counterexample.  In November 2026 the position that started in
    2020 and ends in 2030 has an end date that resolves, and its range
    ends with "Present". *)
Lemma future_end_is_present :
  createDateFromPositionDate (Position.end_ endsIn2030)
  = Some (JSDate.make 2030 6 1)
  /\ JSDate.toLocaleDateString (JSDate.make 2030 6 1) = js"Jul 2030"
  /\ JobEntry.dateRange (jobEntryOf (JSDate.Time nov2026) endsIn2030)
     = js"Jul 2020 - Present"
  /\ JSString.eqb (js"Jul 2020 - Present") (js"Jul 2020 - Jul 2030") = false.
Proof. repeat split; reflexivity. Qed.

(** C3, amended.  When the start date of a position does not resolve, the
    range is the empty string.  When it resolves, the range is the month
    and year of the start, " - ", and then the month and year of the end
    date if that date resolves to a time value earlier than [now], and
    "Present" in every other case: no end date, or an end date that is
    not earlier than [now]. *)
Theorem dateRange_rule (now : Z) (pos : Position.t) :
  match createDateFromPositionDate (Position.start pos) with
  | None => JobEntry.dateRange (jobEntryOf (JSDate.Time now) pos) = []
  | Some startDate =>
      match createDateFromPositionDate (Position.end_ pos) with
      | Some (JSDate.Time e) =>
          if e <? now
          then JobEntry.dateRange (jobEntryOf (JSDate.Time now) pos)
               = JSDate.toLocaleDateString startDate ++ js" - "
                   ++ JSDate.toLocaleDateString (JSDate.Time e)
          else JobEntry.dateRange (jobEntryOf (JSDate.Time now) pos)
               = JSDate.toLocaleDateString startDate ++ js" - " ++ js"Present"
      | _ =>
          JobEntry.dateRange (jobEntryOf (JSDate.Time now) pos)
          = JSDate.toLocaleDateString startDate ++ js" - " ++ js"Present"
      end
  end.
Proof.
  unfold jobEntryOf, endDateOf.
  destruct (createDateFromPositionDate (Position.start pos)) as [startDate|];
    [|reflexivity].
  destruct (createDateFromPositionDate (Position.end_ pos)) as [[|e]|].
  - reflexivity.
  - cbn [JobEntry.dateRange]. rewrite date_ltb_time.
    now destruct (e <? now).
  - cbn [JobEntry.dateRange]. rewrite date_ltb_time, Z.ltb_irrefl. reflexivity.
Qed.

(** ** C7: the years of experience *)

(** C7.  Take the positions that are not excluded, whose start date
    resolves, and that last at least seven months of thirty days from their
    start date to their end date, or to [now] when they have no end date
    that resolves; [now] is the reading of the clock made after the
    positions have been visited.  When there is no such position, and so
    for a profile without positions, the years of experience are 99.
    Otherwise they are the quotient of [now] minus the earliest of these
    start dates by a year of 365.25 days, rounded to the nearest
    integer. *)
Theorem years_of_experience_rule (clock : Clock) (profile : Profile.t)
    (out : Output.t) :
  processProfile clock profile = Return out ->
  ((qualifyingStarts (clock (length (positionsOf profile))) (positionsOf profile) = []
    /\ Output.years_of_experience out = Num 99)
   \/ (exists m,
         m ∈ qualifyingStarts (clock (length (positionsOf profile))) (positionsOf profile)
         /\ (forall s,
               s ∈ qualifyingStarts (clock (length (positionsOf profile)))
                     (positionsOf profile) ->
               m <= s)
         /\ Output.years_of_experience out
            = JSMath.ofZ
                (nearest (clock (length (positionsOf profile)) - m) yearLength)))
  /\ (positionsOf profile = [] -> Output.years_of_experience out = Num 99).
Proof.
  intros Hout. apply processProfile_returns in Hout as [_ ->].
  split; [|intros ->; reflexivity].
  unfold newDate.
  destruct (yearsOfExperience_spec (clock (length (positionsOf profile)))
              (positionsOf profile)) as [H | (m & Hm & Hleast & ->)];
    [now left|].
  right. exists m. split; [exact Hm|]. split; [exact Hleast|].
  apply round_years_nearest.
Qed.

(** An instance: in November 2026 the intern position has no start date
    and the position held since July 2020 gives 6 years. *)
Lemma years_of_experience_rule_witness :
  exists out,
    processProfile (still nov2026)
      (profileOf (js"jo") (Some []) [internByTitle; since2020]) = Return out
    /\ Output.years_of_experience out = JSMath.ofZ 6.
Proof.
  eexists. split; [vm_compute; reflexivity|].
  destruct (years_of_experience_rule (still nov2026)
              (profileOf (js"jo") (Some []) [internByTitle; since2020]) _ eq_refl)
    as [[[Hnone _] | (m & Hm & _ & Hyears)] _].
  - vm_compute in Hnone. discriminate.
  - vm_compute in Hm. apply elem_of_cons in Hm as [-> | Hm].
    + exact Hyears.
    + now apply elem_of_nil in Hm.
Defined.

(** ** C4: the range of the years of experience *)

(** C4, counterexample.  In November 2026 a profile whose only position
    runs from 2030 to 2032 gets -4 years of experience. *)
Lemma future_start_is_negative :
  match processProfile (still nov2026)
          (profileOf (js"jo") (Some []) [startsIn2030]) with
  | Return out => Output.years_of_experience out = JSMath.ofZ (-4)
  | Throw _ => False
  end.
Proof. vm_compute. reflexivity. Qed.

(** C4, amended.  The years of experience are 99 or a rounded integer;
    the integer is not negative when no position of the profile starts
    after [now], the reading of the clock made once the positions have
    been visited. *)
Theorem years_of_experience_range (clock : Clock) (profile : Profile.t)
    (out : Output.t) :
  processProfile clock profile = Return out ->
  Output.years_of_experience out = Num 99
  \/ exists k,
       Output.years_of_experience out = JSMath.ofZ k
       /\ ((forall pos s,
              pos ∈ positionsOf profile ->
              createDateFromPositionDate (Position.start pos)
              = Some (JSDate.Time s) ->
              s <= clock (length (positionsOf profile))) ->
           0 <= k).
Proof.
  intros Hout. apply processProfile_returns in Hout as [_ ->].
  unfold newDate.
  destruct (yearsOfExperience_spec (clock (length (positionsOf profile)))
              (positionsOf profile)) as [[_ ->] | (m & Hm & _ & ->)];
    [now left|].
  right. eexists. split; [reflexivity|].
  intros Hpast. apply Qfloor_half_nonneg; [|reflexivity].
  apply list_elem_of_omap in Hm as (pos & Hpos & Hq).
  specialize (Hpast pos m Hpos).
  rewrite qualifyingStart_endDate in Hq.
  destruct (isExcludedPosition pos); [discriminate|].
  destruct (createDateFromPositionDate (Position.start pos)) as [[|s]|];
    try discriminate.
  destruct (endDateOf pos _); [discriminate|].
  destruct (sevenMonths <=? _); [|discriminate].
  injection Hq as ->. specialize (Hpast eq_refl). lia.
Qed.

(** An instance: a position held since 2020, read in November 2026. *)
Lemma years_of_experience_range_witness :
  exists out,
    processProfile (still nov2026)
      (profileOf (js"jo") (Some []) [since2020]) = Return out
    /\ (Output.years_of_experience out = Num 99
        \/ exists k,
             Output.years_of_experience out = JSMath.ofZ k
             /\ ((forall pos s,
                    pos ∈ [since2020] ->
                    createDateFromPositionDate (Position.start pos)
                    = Some (JSDate.Time s) ->
                    s <= nov2026) ->
                 0 <= k)).
Proof.
  eexists. split; [vm_compute; reflexivity|].
  apply (years_of_experience_range (still nov2026)
           (profileOf (js"jo") (Some []) [since2020])).
  reflexivity.
Defined.

(** ** C5: the readings of the clock *)

(** C5, counterexample.  Under a clock that advances by one millisecond
    per reading, the first reading is not the one that the seniority uses:
    the profile gets 7 years of experience, while a clock that stands still
    at the same first reading gives 6. *)
Lemma now_is_read_again :
  ticking beforeHalfYear 0%nat = still beforeHalfYear 0%nat
  /\ match processProfile (ticking beforeHalfYear)
             (profileOf (js"jo") (Some []) [since2020]),
           processProfile (still beforeHalfYear)
             (profileOf (js"jo") (Some []) [since2020]) with
     | Return moving, Return fixed =>
         Output.years_of_experience moving = JSMath.ofZ 7
         /\ Output.years_of_experience fixed = JSMath.ofZ 6
     | _, _ => False
     end.
Proof. split; [reflexivity|]. vm_compute. split; reflexivity. Qed.

(** C5, amended.  [processProfile] reads the clock once for each position
    while the experiences are built, and once more for the seniority.  The
    loop over the positions makes as many readings as there are positions;
    the job entry of the position visited [i]-th, counted from 0, is made
    with the reading [i], and the years of experience with the reading
    that comes next, the one after the last position.  The outcome is
    determined by the profile and by these readings: two clocks that agree
    on them, such as one clock that stands still, give the same
    outcome. *)
Theorem outcome_determined_by_readings (c1 c2 : Clock) (profile : Profile.t) :
  Loop.reads
    (visitPositions c1 (profileKeywords profile) (positionsOf profile))
  = length (positionsOf profile)
  /\ (forall out,
        processProfile c1 profile = Return out ->
        concat (map Experience.jobs (Output.experiences out))
        = imap (fun i pos => jobEntryOf (JSDate.Time (c1 i)) pos)
            (positionsOf profile)
        /\ Output.years_of_experience out
           = yearsOfExperience
               (JSDate.Time (c1 (length (positionsOf profile))))
               (positionsOf profile))
  /\ ((forall k, (k <= length (positionsOf profile))%nat -> c1 k = c2 k) ->
      processProfile c1 profile = processProfile c2 profile).
Proof.
  split; [apply visit_reads|]. split.
  - intros out Hout. apply processProfile_returns in Hout as [-> ->].
    split; [|reflexivity]. apply experiences_jobs.
  - intros H. unfold processProfile.
    rewrite (visit_clock_ext c1 c2) by (intros k Hk; apply H; lia).
    unfold newDate. rewrite (H (Loop.reads _)); [reflexivity|].
    rewrite visit_reads. lia.
Qed.

(** An instance: one position, so two readings; the second clock differs
    from the third reading on. *)
Lemma outcome_determined_by_readings_witness :
  processProfile (still nov2026) (profileOf (js"jo") (Some []) [since2020])
  = processProfile (fun k => if (k <=? 1)%nat then nov2026 else 0)
      (profileOf (js"jo") (Some []) [since2020]).
Proof.
  apply outcome_determined_by_readings.
  intros [|[|k]] Hk; [reflexivity | reflexivity | simpl in Hk; lia].
Defined.

(** ** C6: the grouping of the positions *)

Lemma experiences_jobs_nonempty clock kw ps :
  Forall (fun g => Experience.jobs g <> []) (experiencesOf clock kw ps).
Proof.
  induction ps as [|q ps IH] using rev_ind; [constructor|].
  destruct (snoc_cases ps) as [-> | (ps' & p & ->)].
  - repeat constructor. discriminate.
  - destruct (experiences_snoc clock kw ps' p) as (gs & g & Hps & _ & _ & Hq).
    rewrite Hq. rewrite Hps in IH. apply Forall_app in IH as [Hgs Hg].
    case_bool_decide; apply Forall_app; split; try exact Hgs.
    + repeat constructor. simpl. now destruct (Experience.jobs g).
    + apply Forall_cons; split; [now apply Forall_inv in Hg|].
      repeat constructor. discriminate.
Qed.

(** C6.  The jobs of the experience groups, read group after group, are
    the job entries of the positions in their order, one per position, and
    no group is empty.  The first position starts a group.  Once [p] has
    been visited, the last group is the group of a run of positions with
    one [companyId], an absent one being ['']: the run starts at [first],
    the first position or one that follows a position with another
    [companyId], and ends with [p]; the group holds the jobs of the run in
    their order and carries the employer metadata of [first], and the
    groups before it are those of the positions before the run.  When [q]
    follows [p], the job of [q] is added to that group if [p] and [q] have
    the same [companyId], and the group keeps its metadata; if they do
    not, [q] starts the next group, which carries the employer metadata of
    [q]: its company name, or 'Unknown Company', and its six other
    employer properties, each [''] when [q] lacks it.  The three positions
    of the example give two groups, of two jobs and of one. *)
Theorem grouping_by_adjacency (clock : Clock) (kw : list jsstring) :
  (forall ps,
     concat (map Experience.jobs (experiencesOf clock kw ps))
     = jobsFrom clock 0 ps)
  /\ (forall ps,
        Forall (fun g => Experience.jobs g <> []) (experiencesOf clock kw ps))
  /\ (forall q,
        experiencesOf clock kw [q]
        = [groupOf q [jobEntryOf (newDate clock 0) q]])
  /\ (forall ps p q,
        exists pre first run,
          ps ++ [p] = pre ++ first :: run
          /\ Forall (fun r => orElse (Position.companyId r) []
                              = orElse (Position.companyId first) []) run
          /\ match last pre with
             | Some r => orElse (Position.companyId r) []
                         <> orElse (Position.companyId first) []
             | None => True
             end
          /\ experiencesOf clock kw (ps ++ [p])
             = experiencesOf clock kw pre
               ++ [groupOf first (jobsFrom clock (length pre) (first :: run))]
          /\ (orElse (Position.companyId p) []
              = orElse (Position.companyId q) [] ->
              experiencesOf clock kw (ps ++ [p; q])
              = experiencesOf clock kw pre
                ++ [groupOf first
                      (jobsFrom clock (length pre) (first :: run ++ [q]))])
          /\ (orElse (Position.companyId p) []
              <> orElse (Position.companyId q) [] ->
              experiencesOf clock kw (ps ++ [p; q])
              = experiencesOf clock kw pre
                ++ [groupOf first (jobsFrom clock (length pre) (first :: run));
                    groupOf q [jobEntryOf (newDate clock (S (length ps))) q]]))
  /\ (forall profile out,
        processProfile clock profile = Return out ->
        Output.experiences out
        = experiencesOf clock (profileKeywords profile) (positionsOf profile))
  /\ map (fun g => map JobEntry.jobTitle (Experience.jobs g))
       (experiencesOf clock kw
          [titled (js"A") (js"Eng"); titled (js"A") (js"Sr Eng");
           titled (js"B") (js"Lead")])
     = [[js"Eng"; js"Sr Eng"]; [js"Lead"]].
Proof.
  split; [apply experiences_jobs|].
  split; [apply experiences_jobs_nonempty|].
  split; [reflexivity|].
  split; [|split; [|reflexivity]].
  - intros ps p q.
    destruct (experiences_runs clock kw ps p)
      as (pre & first & run & Hsplit & Hrun & Hpre & Hps).
    destruct (experiences_snoc clock kw ps p) as (gs0 & g0 & Hps0 & _ & _ & Hq).
    rewrite Hps in Hps0. apply app_inj_tail in Hps0 as [<- <-].
    exists pre, first, run.
    split; [exact Hsplit|]. split; [exact Hrun|]. split; [exact Hpre|].
    split; [exact Hps|].
    specialize (Hq q). rewrite <- app_assoc in Hq. simpl in Hq.
    unfold companyIdOf in Hq.
    assert (Hlen : S (length ps) = (length pre + S (length run))%nat).
    { apply (f_equal length) in Hsplit. rewrite !length_app in Hsplit.
      simpl in Hsplit. lia. }
    split; intros Hpq; rewrite Hq.
    + rewrite bool_decide_eq_true_2 by exact Hpq.
      change (first :: run ++ [q]) with ((first :: run) ++ [q]).
      rewrite jobsFrom_snoc. simpl length. rewrite <- Hlen. reflexivity.
    + now rewrite bool_decide_eq_false_2.
  - intros profile out Hout. now apply processProfile_returns in Hout.
Qed.

(** ** C10: positions without a company identifier *)

(** C10.  The positions of a run [first :: rest] whose [companyId] is
    absent or empty all get the identifier [''] and their jobs lie side by
    side in one experience group.  When the run is not preceded by another position
    without identifier, that group starts with the run and carries the
    employer metadata of its first position: the company name of that
    position, or 'Unknown Company' without one, whatever the names of the
    others. *)
Theorem run_without_companyId (clock : Clock) (kw : list jsstring)
    (pre : list Position.t) (first : Position.t) (rest post : list Position.t) :
  Forall (fun pos => truthyStr (Position.companyId pos) = false) (first :: rest) ->
  exists before g later jobsBefore jobsAfter,
    experiencesOf clock kw (pre ++ (first :: rest) ++ post)
    = before ++ g :: later
    /\ Experience.companyId g = []
    /\ Experience.jobs g
       = jobsBefore ++ jobsFrom clock (length pre) (first :: rest) ++ jobsAfter
    /\ (match last pre with
        | Some p => truthyStr (Position.companyId p) = true
        | None => True
        end ->
        before = experiencesOf clock kw pre
        /\ jobsBefore = []
        /\ Experience.company g
           = orElse (Position.companyName first) (js"Unknown Company")
        /\ Experience.header g
           = Experience.header
               (newExperienceEntry first
                  (jobEntryOf (newDate clock (length pre)) first))).
Proof.
  intros Hrun.
  destruct (run_group clock kw pre first rest Hrun)
    as (before & g & jobsBefore & Hall & Hid & Hjobs & Hleft).
  destruct (experiences_extend clock kw (pre ++ first :: rest) post before g Hall)
    as (g' & later & jobsAfter & Hall' & Hhead & Hjobs').
  exists before, g', later, jobsBefore, jobsAfter.
  rewrite <- app_assoc in Hall'. split; [exact Hall'|].
  assert (Hfield : forall f : Experience.t -> jsstring,
            (forall e, f (Experience.header e) = f e) -> f g' = f g).
  { intros f Hf. now rewrite <- (Hf g'), Hhead, Hf. }
  split; [now rewrite (Hfield Experience.companyId)|].
  split; [now rewrite Hjobs', Hjobs, <- app_assoc|].
  intros Hpre. destruct (Hleft Hpre) as (-> & -> & Hg).
  repeat split.
  - change (Experience.company g')
      with (Experience.company (Experience.header g')).
    now rewrite Hhead, Hg.
  - now rewrite Hhead.
Qed.

(** An instance: after a position at company A, two positions without
    identifier, named X and Y, share one group, whose company is X. *)
Lemma run_without_companyId_witness :
  exists before g later jobsAfter,
    experiencesOf (still nov2026) []
      ([titled (js"A") (js"Eng")]
       ++ [unidentified (js"X"); unidentified (js"Y")] ++ [])
    = before ++ g :: later
    /\ before = experiencesOf (still nov2026) [] [titled (js"A") (js"Eng")]
    /\ Experience.companyId g = []
    /\ Experience.company g = js"X"
    /\ Experience.jobs g
       = jobsFrom (still nov2026) 1 [unidentified (js"X"); unidentified (js"Y")]
         ++ jobsAfter.
Proof.
  destruct (run_without_companyId (still nov2026) [] [titled (js"A") (js"Eng")]
              (unidentified (js"X")) [unidentified (js"Y")] [])
    as (before & g & later & jobsBefore & jobsAfter & Hall & Hid & Hjobs & Hleft).
  - repeat constructor.
  - destruct (Hleft eq_refl) as (Hbefore & HjobsBefore & Hcompany & _).
    exists before, g, later, jobsAfter.
    rewrite HjobsBefore in Hjobs. now repeat split.
Defined.

(** ** C1: absent optional fields *)

(** C1, the failing input.  A profile without [supportedLocales] makes
    [processProfile] raise a [TypeError], whatever its other fields: the
    language inference reads element 0 of the absent array. *)
Theorem absent_supportedLocales_raises (clock : Clock) (profile : Profile.t) :
  Profile.supportedLocales profile = None ->
  processProfile clock profile = Throw TypeError.
Proof.
  intros H. apply processProfile_throws. left. split; [now left | reflexivity].
Qed.

(** An instance: [{ urn: 'u', username: 'jo', position: [] }]. *)
Lemma absent_supportedLocales_raises_witness :
  processProfile (still nov2026) (profileOf (js"jo") None []) = Throw TypeError.
Proof.
  apply absent_supportedLocales_raises. reflexivity.
Defined.

(** ** C9: the identifier fields *)

(** C9, the failing input.  [processProfile] raises a [URIError] exactly
    when [supportedLocales] is an array, no element of [skills] or of
    [languages] is [null], and the user name does not decode.
    The user name [%E0%A4%A] does not decode; with an empty array of
    locales the profile raises the [URIError], and without
    [supportedLocales] it raises a [TypeError] before the user name is
    decoded. *)
Theorem decode_error_rule (clock : Clock) (profile : Profile.t) :
  (processProfile clock profile = Throw URIError <->
   Profile.supportedLocales profile <> None
   /\ (None ∉ default [] (Profile.skills profile))
   /\ (None ∉ default [] (Profile.languages profile))
   /\ URI.decodeURI (toString (Profile.username profile)) = Throw URIError)
  /\ URI.decodeURI (js"%E0%A4%A") = Throw URIError
  /\ processProfile clock (profileOf (js"%E0%A4%A") (Some []) [])
     = Throw URIError
  /\ processProfile clock (profileOf (js"%E0%A4%A") None []) = Throw TypeError.
Proof.
  split; [|repeat split; reflexivity].
  rewrite processProfile_throws. split.
  - intros [[_ ?] | (? & ? & ? & _ & ?)]; [discriminate | now repeat split].
  - intros (? & ? & ? & ?). right. now repeat split.
Qed.

(** * Further properties *)

(** ** The keywords *)

Lemma existsb_eqb w set : existsb (JSString.eqb w) set = true <-> w ∈ set.
Proof.
  rewrite existsb_exists. split.
  - intros (x & Hx & Heq). apply eqb_eq in Heq as ->. now apply list_elem_of_In.
  - intros H. exists w. split; [now apply list_elem_of_In | now apply eqb_eq].
Qed.

Lemma existsb_eqb_false w set : existsb (JSString.eqb w) set = false <-> w ∉ set.
Proof. rewrite <- existsb_eqb. now destruct (existsb _ set). Qed.

Lemma fold_addWord l : forall set,
  fold_left addWord l set = set ++ firstOccurrences set l.
Proof.
  induction l as [|w l IH]; intros set; simpl; [now rewrite app_nil_r|].
  unfold addWord at 2. destruct (existsb (JSString.eqb w) set); rewrite IH.
  - reflexivity.
  - now rewrite <- app_assoc.
Qed.

Lemma firstOccurrences_app l1 l2 : forall seen,
  firstOccurrences seen (l1 ++ l2)
  = firstOccurrences seen l1
    ++ firstOccurrences (seen ++ firstOccurrences seen l1) l2.
Proof.
  induction l1 as [|w l1 IH]; intros seen; simpl; [now rewrite app_nil_r|].
  destruct (existsb (JSString.eqb w) seen); rewrite IH; [reflexivity|].
  simpl. now rewrite <- app_assoc.
Qed.

Lemma addWords_fold text set :
  addWords text set = set ++ firstOccurrences set (JSString.split_ws text).
Proof. apply fold_addWord. Qed.

Lemma addWordsOf_tokens v set :
  addWordsOf v set = set ++ firstOccurrences set (tokensOf v).
Proof.
  unfold addWordsOf, tokensOf.
  destruct v as [[|c s]|]; simpl; rewrite ?app_nil_r; try reflexivity.
  apply addWords_fold.
Qed.

(** Adding the pieces of several sources, one source after the other. *)
Lemma addSources_tokens sources : forall set,
  fold_left (fun acc v => addWordsOf v acc) sources set
  = set ++ firstOccurrences set (concat (map tokensOf sources)).
Proof.
  induction sources as [|v sources IH]; intros set; simpl;
    [now rewrite app_nil_r|].
  rewrite IH, addWordsOf_tokens, firstOccurrences_app.
  now rewrite <- app_assoc.
Qed.

Lemma addNames_sources entities set :
  addNames entities set
  = fold_left (fun acc v => addWordsOf v acc)
      (map nameOf (default [] entities)) set.
Proof.
  unfold addNames. destruct entities as [l|]; simpl; [|reflexivity].
  revert set. induction l as [|e l IH]; intros set; simpl; [reflexivity|].
  apply IH.
Qed.

Lemma step_keywords clock st pos :
  Loop.keywordsSet (positionStep clock st pos)
  = fold_left (fun acc v => addWordsOf v acc)
      [Position.title pos; Position.description pos] (Loop.keywordsSet st).
Proof.
  unfold positionStep.
  destruct (Loop.lastCompanyId st) as [l|]; [|reflexivity].
  destruct (JSString.eqb _ l); [|reflexivity].
  now destruct (Loop.currentExperienceEntry st).
Qed.

Lemma visit_keywords clock kw ps :
  Loop.keywordsSet (visitPositions clock kw ps)
  = fold_left (fun acc v => addWordsOf v acc)
      (concat (map (fun pos => [Position.title pos; Position.description pos]) ps))
      kw.
Proof.
  induction ps as [|p ps IH] using rev_ind; [reflexivity|].
  rewrite visit_snoc, step_keywords, IH, map_app, concat_app, fold_left_app.
  simpl. reflexivity.
Qed.

(** The keyword set is the sequence of the first occurrences of the
    pieces of the sources. *)
Lemma keywordsOf_firstOccurrences clock profile :
  keywordsOf clock profile = firstOccurrences [] (keywordTokens profile).
Proof.
  unfold keywordsOf, keywordTokens, keywordSources, profileKeywords.
  rewrite visit_keywords, !addNames_sources.
  change (addWordsOf (Profile.headline profile)
            (addWordsOf (Profile.summary profile) []))
    with (fold_left (fun acc v => addWordsOf v acc)
            [Profile.summary profile; Profile.headline profile] []).
  rewrite <- !fold_left_app. now rewrite addSources_tokens.
Qed.
Lemma firstOccurrences_elem l : forall seen w,
  w ∈ firstOccurrences seen l <-> w ∈ l /\ (w ∉ seen).
Proof.
  induction l as [|x l IH]; intros seen w; simpl.
  - split; [intros H; now apply elem_of_nil in H | intros [H _]; now apply elem_of_nil in H].
  - destruct (existsb (JSString.eqb x) seen) eqn:Hx.
    + apply existsb_eqb in Hx. rewrite IH, elem_of_cons. split.
      * intros [? ?]. split; [now right | assumption].
      * intros [[-> | ?] ?]; [contradiction | now split].
    + apply existsb_eqb_false in Hx.
      rewrite !elem_of_cons, IH, elem_of_app, list_elem_of_singleton. split.
      * intros [-> | [? ?]]; [split; [now left | assumption]|].
        split; [now right | tauto].
      * intros [[-> | ?] ?]; [now left|].
        destruct (decide (w = x)) as [-> | Hne]; [now left|].
        right. split; [assumption | tauto].
Qed.

Lemma firstOccurrences_NoDup l : forall seen, NoDup (firstOccurrences seen l).
Proof.
  induction l as [|x l IH]; intros seen; simpl; [constructor|].
  destruct (existsb (JSString.eqb x) seen); [apply IH|].
  constructor; [|apply IH].
  rewrite firstOccurrences_elem, elem_of_app, list_elem_of_singleton. tauto.
Qed.

(** Before a keyword stand the first occurrences of the pieces that
    precede its own first occurrence. *)
Lemma firstOccurrences_order l : forall seen k1 a k2,
  firstOccurrences seen l = k1 ++ a :: k2 ->
  exists t1 t2,
    l = t1 ++ a :: t2 /\ (a ∉ t1) /\ (a ∉ seen)
    /\ forall w, w ∈ k1 <-> w ∈ t1 /\ (w ∉ seen).
Proof.
  induction l as [|x l IH]; intros seen k1 a k2; simpl.
  - intros H. now destruct k1.
  - destruct (existsb (JSString.eqb x) seen) eqn:Hx.
    + apply existsb_eqb in Hx. intros H.
      destruct (IH _ _ _ _ H) as (t1 & t2 & -> & Ha1 & Ha & Hk).
      exists (x :: t1), t2.
      split; [reflexivity|]. split; [|split; [assumption|]].
      * rewrite elem_of_cons. intros [-> | ?]; contradiction.
      * intros w. rewrite Hk, elem_of_cons. split; [tauto|].
        intros [[-> | ?] ?]; [contradiction | tauto].
    + apply existsb_eqb_false in Hx. destruct k1 as [|y k1]; simpl.
      * intros [= <- _]. exists [], l.
        split; [reflexivity|]. split; [|split; [assumption|]].
        -- intros H. now apply elem_of_nil in H.
        -- intros w. rewrite !elem_of_nil. tauto.
      * intros [= <- H].
        destruct (IH _ _ _ _ H) as (t1 & t2 & -> & Ha1 & Ha & Hk).
        rewrite elem_of_app, list_elem_of_singleton in Ha.
        exists (x :: t1), t2.
        split; [reflexivity|]. split; [|split; [tauto|]].
        -- rewrite elem_of_cons. tauto.
        -- intros w. rewrite !elem_of_cons, Hk, elem_of_app,
             list_elem_of_singleton.
           destruct (decide (w = x)) as [-> | Hne]; tauto.
Qed.

Lemma elem_of_rev {A} (x : A) (l : list A) : x ∈ rev l <-> x ∈ l.
Proof. rewrite !list_elem_of_In. symmetry. apply in_rev. Qed.

(** The pieces of [split(/\s+/)] hold no white space, and put together
    they are the string without its white space. *)
Lemma splitAux_solid s : forall cur inRun,
  solid cur -> Forall solid (JSString.splitAux cur inRun s).
Proof.
  induction s as [|c s IH]; intros cur inRun Hcur; simpl.
  - constructor; [|constructor]. intros x Hx. apply Hcur. now apply elem_of_rev.
  - destruct (JSString.isWhiteSpace c) eqn:Hc.
    + assert (Hnil : solid []) by (intros x Hx; now apply elem_of_nil in Hx).
      destruct inRun; [now apply IH|].
      constructor; [|now apply IH].
      intros x Hx. apply Hcur. now apply elem_of_rev.
    + apply IH. intros x Hx. apply elem_of_cons in Hx as [-> | Hx];
        [assumption | now apply Hcur].
Qed.

Lemma split_ws_solid s : Forall solid (JSString.split_ws s).
Proof.
  apply splitAux_solid. intros x Hx. now apply elem_of_nil in Hx.
Qed.

Lemma splitAux_concat s : forall cur inRun,
  (inRun = true -> cur = []) ->
  concat (JSString.splitAux cur inRun s)
  = rev cur ++ List.filter (fun c => negb (JSString.isWhiteSpace c)) s.
Proof.
  induction s as [|c s IH]; intros cur inRun Hrun; simpl.
  - now rewrite app_nil_r.
  - destruct (JSString.isWhiteSpace c); simpl.
    + destruct inRun; simpl; rewrite IH by reflexivity; simpl.
      * now rewrite (Hrun eq_refl).
      * reflexivity.
    + rewrite IH by discriminate. simpl. now rewrite <- app_assoc.
Qed.

Lemma split_ws_concat s :
  concat (JSString.split_ws s)
  = List.filter (fun c => negb (JSString.isWhiteSpace c)) s.
Proof. apply splitAux_concat. discriminate. Qed.

(** ** The record that [processProfile] returns *)

(** A returned record is [recordOf] at the languages and at the decoded
    user name; the URL is the prefix followed by the decoded user name. *)
Lemma processProfile_inv clock profile out :
  processProfile clock profile = Return out ->
  exists languages id,
    languagesOf profile = Return languages
    /\ URI.decodeURI (toString (Profile.username profile)) = Return id
    /\ out = recordOf clock profile languages id
               (js"https://linkedin.com/in/" ++ id).
Proof.
  unfold processProfile.
  destruct (languagesOf profile) as [languages|]; [|discriminate].
  cbn [bind].
  assert (Hskills :
    match Profile.skills profile with
    | Some l =>
        let! names := namesOf l in
        Return (Some (SkillsOut.Build names l))
    | None => Return None
    end
    = match Profile.skills profile with
      | Some l =>
          let! names := namesOf l in
          Return (Some (SkillsOut.Build (map nameOf l) l))
      | None => Return None
      end).
  { destruct (Profile.skills profile) as [l|]; [|reflexivity].
    destruct (namesOf l) as [names|] eqn:Hn; [|reflexivity].
    apply namesOf_returns in Hn as [_ ->]. reflexivity. }
  rewrite Hskills. clear Hskills.
  destruct (Profile.skills profile) as [l|] eqn:Hl;
    [destruct (namesOf l) as [names|]; [|discriminate]|];
    cbn [bind];
    rewrite decodeURI_prefix by reflexivity;
    (destruct (URI.decodeURI (toString _)) as [id|]; [|discriminate]);
    cbn [bind]; intros [= <-]; exists languages, id;
    (split; [reflexivity|]); (split; [reflexivity|]);
    unfold recordOf; rewrite Hl; reflexivity.
Qed.


Lemma output_keywords clock profile out :
  processProfile clock profile = Return out ->
  Output.keywords out = JSString.join (js" ") (keywordsOf clock profile).
Proof.
  intros Hout.
  now apply processProfile_inv in Hout as (languages & id & _ & _ & ->).
Qed.

Lemma keywordsOf_elem clock profile w :
  w ∈ keywordsOf clock profile <-> w ∈ keywordTokens profile.
Proof.
  rewrite keywordsOf_firstOccurrences, firstOccurrences_elem, elem_of_nil.
  tauto.
Qed.

Lemma keywordsOf_solid clock profile : Forall solid (keywordsOf clock profile).
Proof.
  apply Forall_forall. intros w Hw. apply keywordsOf_elem in Hw.
  unfold keywordTokens in Hw.
  apply list_elem_of_In, in_concat in Hw as (toks & Htoks & Hw).
  apply in_map_iff in Htoks as (v & <- & _).
  unfold tokensOf in Hw. destruct v as [[|c s]|]; try now destruct Hw.
  pose proof (split_ws_solid (c :: s)) as Hsolid.
  rewrite Forall_forall in Hsolid. now apply Hsolid, list_elem_of_In.
Qed.

(** X1.  The keywords of the output are the keyword set joined by spaces.
    The set has no duplicate; it holds exactly the pieces that
    [split(/\s+/)] cuts out of the summary, the headline, the names of the
    skills and of the languages, and the titles and descriptions of the
    positions; no keyword holds white space. *)
Theorem keywords_are_the_distinct_pieces (clock : Clock) (profile : Profile.t)
    (out : Output.t) :
  processProfile clock profile = Return out ->
  Output.keywords out = JSString.join (js" ") (keywordsOf clock profile)
  /\ NoDup (keywordsOf clock profile)
  /\ (forall w, w ∈ keywordsOf clock profile <-> w ∈ keywordTokens profile)
  /\ Forall solid (keywordsOf clock profile).
Proof.
  intros Hout. split; [now apply output_keywords|].
  split; [rewrite keywordsOf_firstOccurrences; apply firstOccurrences_NoDup|].
  split; [apply keywordsOf_elem | apply keywordsOf_solid].
Qed.

(** An instance: the headline "Go Go Rust". *)
Lemma keywords_are_the_distinct_pieces_witness :
  exists out,
    processProfile (still nov2026) (headlined (js"Go Go Rust")) = Return out
    /\ Output.keywords out = js"Go Rust"
    /\ NoDup (keywordsOf (still nov2026) (headlined (js"Go Go Rust"))).
Proof.
  eexists. split; [vm_compute; reflexivity|].
  destruct (keywords_are_the_distinct_pieces (still nov2026)
              (headlined (js"Go Go Rust")) _ eq_refl) as (Hk & Hdup & _).
  split; [exact Hk | exact Hdup].
Defined.

(** X2.  The keywords stand in the order of their first occurrence: the
    keywords before a keyword [a] are the pieces met before the first
    occurrence of [a], so a later duplicate moves nothing. *)
Theorem keywords_in_first_occurrence_order (clock : Clock)
    (profile : Profile.t) (k1 : list jsstring) (a : jsstring)
    (k2 : list jsstring) :
  keywordsOf clock profile = k1 ++ a :: k2 ->
  exists t1 t2,
    keywordTokens profile = t1 ++ a :: t2
    /\ (a ∉ t1)
    /\ forall w, w ∈ k1 <-> w ∈ t1.
Proof.
  rewrite keywordsOf_firstOccurrences. intros H.
  destruct (firstOccurrences_order _ _ _ _ _ H) as (t1 & t2 & Ht & Ha & _ & Hk).
  exists t1, t2. split; [exact Ht|]. split; [exact Ha|].
  intros w. rewrite Hk, elem_of_nil. tauto.
Qed.

(** An instance: in "Go Go Rust" the keyword "Rust" comes after "Go". *)
Lemma keywords_in_first_occurrence_order_witness :
  exists t1 t2,
    keywordTokens (headlined (js"Go Go Rust")) = t1 ++ js"Rust" :: t2
    /\ (js"Rust" ∉ t1)
    /\ forall w, w ∈ [js"Go"] <-> w ∈ t1.
Proof.
  apply (keywords_in_first_occurrence_order (still nov2026)
           (headlined (js"Go Go Rust")) [js"Go"] (js"Rust") []).
  reflexivity.
Defined.
Lemma splitAux_word w : forall cur inRun s,
  solid w -> w <> [] ->
  JSString.splitAux cur inRun (w ++ s) = JSString.splitAux (rev w ++ cur) false s.
Proof.
  induction w as [|c w IH]; intros cur inRun s Hw Hne; [contradiction|].
  assert (Hc : JSString.isWhiteSpace c = false)
    by (apply Hw, elem_of_cons; now left).
  simpl. rewrite Hc. destruct w as [|c' w].
  - reflexivity.
  - rewrite IH; [|intros x Hx; apply Hw, elem_of_cons; now right|discriminate].
    simpl. now rewrite <- !app_assoc.
Qed.

(** Splitting a list of words joined by single spaces gives the words
    back. *)
Lemma split_join words : forall inRun,
  words <> [] ->
  Forall (fun w => solid w /\ w <> []) words ->
  JSString.splitAux [] inRun (JSString.join (js" ") words) = words.
Proof.
  induction words as [|w words IH]; intros inRun Hne Hall; [contradiction|].
  apply Forall_cons in Hall as [[Hw Hw0] Hall].
  destruct words as [|w2 words].
  - simpl. rewrite <- (app_nil_r w) at 1.
    rewrite splitAux_word by assumption. simpl.
    now rewrite app_nil_r, rev_involutive.
  - change (JSString.join (js" ") (w :: w2 :: words))
      with (w ++ 32%N :: JSString.join (js" ") (w2 :: words)).
    rewrite splitAux_word by assumption.
    cbn [JSString.splitAux]. change (JSString.isWhiteSpace 32) with true.
    cbn iota. rewrite app_nil_r, rev_involutive. f_equal.
    now apply IH.
Qed.

(** X3.  Splitting the keywords of the output on white space gives the
    keyword set back, as long as the set is not empty and does not hold
    the empty string (the piece that white space at an end of a source
    leaves). *)
Theorem keywords_split_back (clock : Clock) (profile : Profile.t)
    (out : Output.t) :
  processProfile clock profile = Return out ->
  keywordsOf clock profile <> [] ->
  ([] ∉ keywordsOf clock profile) ->
  JSString.split_ws (Output.keywords out) = keywordsOf clock profile.
Proof.
  intros Hout Hne Hempty. rewrite (output_keywords clock profile out Hout).
  pose proof (keywordsOf_solid clock profile) as Hsolid.
  apply split_join; [exact Hne|].
  rewrite Forall_forall in Hsolid |- *. intros w Hw.
  split; [now apply Hsolid|]. intros ->. contradiction.
Qed.

(** An instance: the headline "Go Go Rust". *)
Lemma keywords_split_back_witness :
  exists out,
    processProfile (still nov2026) (headlined (js"Go Go Rust")) = Return out
    /\ JSString.split_ws (Output.keywords out) = [js"Go"; js"Rust"].
Proof.
  eexists. split; [vm_compute; reflexivity|].
  apply (keywords_split_back (still nov2026) (headlined (js"Go Go Rust")));
    [reflexivity | discriminate |].
  intros H. apply elem_of_cons in H as [H | H]; [discriminate|].
  apply elem_of_cons in H as [H | H]; [discriminate|].
  now apply elem_of_nil in H.
Defined.
(** ** Durations *)

(** X4.  The duration of a job entry is 0 when the start date of the
    position does not resolve.  When it resolves, the duration runs from
    the start date to the end date of the position, or to [now] when the
    position has no end date that resolves: it is 0 when that end is not
    after the start, and otherwise the number of thirty-day months between
    the two, rounded to the nearest integer, a half going up.  It is never
    negative; it is [NaN] only when one of the two dates lies outside the
    range of [Date]. *)
Theorem job_duration_range (now : Z) (pos : Position.t) :
  match createDateFromPositionDate (Position.start pos) with
  | None =>
      JobEntry.duration (jobEntryOf (JSDate.Time now) pos) = JSMath.ofZ 0
  | Some JSDate.Invalid =>
      JobEntry.duration (jobEntryOf (JSDate.Time now) pos) = NaN
  | Some (JSDate.Time s) =>
      match createDateFromPositionDate (Position.end_ pos) with
      | Some JSDate.Invalid =>
          JobEntry.duration (jobEntryOf (JSDate.Time now) pos) = NaN
      | Some (JSDate.Time e) =>
          JobEntry.duration (jobEntryOf (JSDate.Time now) pos)
          = JSMath.ofZ (monthsBetween s e)
          /\ 0 <= monthsBetween s e
      | None =>
          JobEntry.duration (jobEntryOf (JSDate.Time now) pos)
          = JSMath.ofZ (monthsBetween s now)
          /\ 0 <= monthsBetween s now
      end
  end.
Proof.
  assert (Hpos : forall s e, 0 <= monthsBetween s e).
  { intros s e. unfold monthsBetween, nearest, monthLength.
    destruct (e <=? s) eqn:Hes; [lia|]. apply Z.leb_gt in Hes.
    apply Z.div_pos; lia. }
  unfold jobEntryOf, endDateOf.
  destruct (createDateFromPositionDate (Position.start pos)) as [[|s]|];
    [| |reflexivity].
  - now destruct (createDateFromPositionDate (Position.end_ pos)) as [[|e]|].
  - destruct (createDateFromPositionDate (Position.end_ pos)) as [[|e]|];
      [reflexivity| |];
      cbn [JobEntry.duration]; (split; [apply duration_nearest | apply Hpos]).
Qed.

Lemma job_duration_nonneg now pos :
  JobEntry.duration (jobEntryOf (JSDate.Time now) pos) = NaN
  \/ exists k, 0 <= k
       /\ JobEntry.duration (jobEntryOf (JSDate.Time now) pos) = JSMath.ofZ k.
Proof.
  unfold jobEntryOf.
  destruct (createDateFromPositionDate (Position.start pos)) as [[|s]|].
  - left. now destruct (endDateOf pos (JSDate.Time now)).
  - destruct (endDateOf pos (JSDate.Time now)) as [|e]; [now left|].
    right. cbn [JobEntry.duration]. rewrite duration_round.
    eexists. split; [|reflexivity].
    destruct (e <=? s) eqn:Hes; [lia|]. apply Z.leb_gt in Hes.
    apply Z.div_pos; lia.
  - right. exists 0. now split.
Qed.

(** The first job of the first group is the job of the first position. *)
Lemma experiences_first_job clock kw p ps :
  exists g gs more,
    experiencesOf clock kw (p :: ps) = g :: gs
    /\ Experience.jobs g = jobEntryOf (newDate clock 0) p :: more.
Proof.
  destruct (experiences_extend clock kw [p] ps []
              (newExperienceEntry p (jobEntryOf (newDate clock 0) p)) eq_refl)
    as (g & later & jobsAfter & Hall & _ & Hjobs).
  exists g, later, jobsAfter. split; [exact Hall | exact Hjobs].
Qed.

(** X5.  [current_employment_duration] is the duration of the job of the
    first position of the list, whether or not that position is the
    current one, and 0 when the list is empty or that duration is [NaN];
    it is a non-negative integer. *)
Theorem current_employment_duration_is_first (clock : Clock)
    (profile : Profile.t) (out : Output.t) :
  processProfile clock profile = Return out ->
  (positionsOf profile = [] ->
   Output.current_employment_duration out = JSMath.ofZ 0)
  /\ (forall p ps,
        positionsOf profile = p :: ps ->
        JobEntry.duration (jobEntryOf (newDate clock 0) p) <> NaN ->
        Output.current_employment_duration out
        = JobEntry.duration (jobEntryOf (newDate clock 0) p))
  /\ (forall p ps,
        positionsOf profile = p :: ps ->
        JobEntry.duration (jobEntryOf (newDate clock 0) p) = NaN ->
        Output.current_employment_duration out = JSMath.ofZ 0)
  /\ exists k, 0 <= k /\ Output.current_employment_duration out = JSMath.ofZ k.
Proof.
  intros Hout.
  apply processProfile_inv in Hout as (languages & id & _ & _ & ->).
  unfold recordOf. cbn [Output.current_employment_duration].
  fold (experiencesOf clock (profileKeywords profile) (positionsOf profile)).
  destruct (positionsOf profile) as [|p ps] eqn:Hps.
  - repeat split; try discriminate. exists 0. now split.
  - destruct (experiences_first_job clock (profileKeywords profile) p ps)
      as (g & gs & more & -> & ->).
    assert (Hround : forall k, 0 <= k ->
              (if JSMath.truthy (JSMath.ofZ k) then JSMath.ofZ k else Num 0)
              = JSMath.ofZ k).
    { intros k _. unfold JSMath.truthy, JSMath.ofZ.
      destruct (Qeq_bool (inject_Z k) 0) eqn:Hk; [|reflexivity].
      apply Qeq_bool_iff in Hk. apply (inject_Z_injective k 0) in Hk.
      now subst. }
    unfold newDate.
    destruct (job_duration_nonneg (clock 0%nat) p) as [Hnan | (k & Hk & Hd)].
    + rewrite Hnan. cbn [JSMath.truthy].
      split; [discriminate|]. split; [|split].
      * intros p' ps' [= <- <-] H. contradiction.
      * reflexivity.
      * exists 0. now split.
    + rewrite Hd, (Hround k Hk).
      split; [discriminate|]. split; [|split].
      * intros p' ps' [= <- <-] _. now rewrite Hd.
      * intros p' ps' [= <- <-] H. rewrite Hd in H. discriminate.
      * exists k. now split.
Qed.

(** An instance: the first position ended in 2012 and the second one is
    current; the duration is that of the first. *)
Lemma current_employment_duration_is_first_witness :
  exists out,
    processProfile (still nov2026)
      (profileOf (js"jo") (Some [])
         [dated (js"Dev") (Some (yearMonth 2010 3)) (Some (yearMonth 2012 11));
          since2020]) = Return out
    /\ Output.current_job_title out = js"Dev"
    /\ Output.current_employment_duration out = JSMath.ofZ 33.
Proof.
  eexists. split; [vm_compute; reflexivity|]. split; [reflexivity|].
  destruct (current_employment_duration_is_first (still nov2026)
              (profileOf (js"jo") (Some [])
                 [dated (js"Dev") (Some (yearMonth 2010 3)) (Some (yearMonth 2012 11));
                  since2020]) _ eq_refl) as (_ & Hfirst & _).
  refine (Hfirst _ _ eq_refl _). discriminate.
Defined.

(** ** The identifier fields *)

Lemma decodeURI_plain s :
  (37%N ∉ s) -> URI.decodeURI s = Return s.
Proof.
  intros Hs.
  assert (Hb : forallb (fun c => negb (c =? 37)%N) s = true).
  { apply forallb_forall. intros c Hc. apply negb_true_iff, N.eqb_neq.
    intros ->. now apply Hs, list_elem_of_In. }
  pose proof (decodeURI_prefix s [] Hb) as H.
  change (URI.decodeURI []) with (@Return jsstring []) in H.
  cbv iota beta in H. now rewrite !app_nil_r in H.
Qed.


(** X7.  In every record returned, [public_linkedin_identifier] is the
    decoded user name and [linkedin_url] is
    [https://linkedin.com/in/] followed by that identifier. *)
Theorem linkedin_url_extends_identifier (clock : Clock) (profile : Profile.t)
    (out : Output.t) :
  processProfile clock profile = Return out ->
  URI.decodeURI (toString (Profile.username profile))
  = Return (Output.public_linkedin_identifier out)
  /\ Output.linkedin_url out
     = js"https://linkedin.com/in/" ++ Output.public_linkedin_identifier out.
Proof.
  intros Hout.
  apply processProfile_inv in Hout as (languages & id & _ & Hid & ->).
  split; [exact Hid | reflexivity].
Qed.

(** An instance: the user name [jos%C3%A9]. *)
Lemma linkedin_url_extends_identifier_witness :
  exists out,
    processProfile (still nov2026) (profileOf (js"jos%C3%A9") (Some []) [])
    = Return out
    /\ Output.public_linkedin_identifier out = js"jos" ++ [233%N]
    /\ Output.linkedin_url out
       = js"https://linkedin.com/in/" ++ Output.public_linkedin_identifier out.
Proof.
  eexists. split; [vm_compute; reflexivity|]. split; [reflexivity|].
  apply (linkedin_url_extends_identifier (still nov2026)
           (profileOf (js"jos%C3%A9") (Some []) [])).
  reflexivity.
Defined.

(** X8.  A user name without [%] goes into the identifier unchanged; an
    absent user name gives the identifier [undefined] and the URL
    [https://linkedin.com/in/undefined]. *)
Theorem plain_username_is_kept (clock : Clock) (profile : Profile.t)
    (out : Output.t) :
  processProfile clock profile = Return out ->
  (forall name,
     Profile.username profile = Some name -> (37%N ∉ name) ->
     Output.public_linkedin_identifier out = name
     /\ Output.linkedin_url out = js"https://linkedin.com/in/" ++ name)
  /\ (Profile.username profile = None ->
      Output.public_linkedin_identifier out = js"undefined"
      /\ Output.linkedin_url out = js"https://linkedin.com/in/undefined").
Proof.
  intros Hout.
  apply processProfile_inv in Hout as (languages & id & _ & Hid & ->).
  cbn [Output.public_linkedin_identifier Output.linkedin_url recordOf].
  split.
  - intros name Hname Hplain. rewrite Hname in Hid. simpl in Hid.
    rewrite (decodeURI_plain name Hplain) in Hid. injection Hid as <-.
    now split.
  - intros Hnone. rewrite Hnone in Hid. injection Hid as <-. now split.
Qed.

(** An instance: the user name [jo]. *)
Lemma plain_username_is_kept_witness :
  exists out,
    processProfile (still nov2026) (headlined (js"Dev")) = Return out
    /\ Output.public_linkedin_identifier out = js"jo".
Proof.
  eexists. split; [vm_compute; reflexivity|].
  destruct (plain_username_is_kept (still nov2026) (headlined (js"Dev")) _
              eq_refl) as [Hplain _].
  refine (proj1 (Hplain (js"jo") eq_refl _)).
  intros H. repeat (apply elem_of_cons in H as [H | H]; [discriminate|]).
  now apply elem_of_nil in H.
Defined.

(** ** [decodeURI] *)

Lemma tokens_units_of s : forall ts,
  URI.tokens s = Some ts -> unitsOf ts = length s.
Proof.
  induction s as [s IH] using (induction_ltof1 _ (@length N)).
  unfold ltof in IH. intros ts. destruct s as [|c rest]; simpl.
  - now intros [= <-].
  - destruct (c =? 37)%N.
    + destruct rest as [|h1 [|h2 rest']]; try discriminate.
      destruct (URI.hexDigit h1), (URI.hexDigit h2); try discriminate.
      destruct (URI.tokens rest') as [ts'|] eqn:E; [|discriminate].
      intros [= <-]. unfold unitsOf in *. simpl.
      rewrite (IH rest' ltac:(simpl; lia) ts' E). reflexivity.
    + destruct (URI.tokens rest) as [ts'|] eqn:E; [|discriminate].
      intros [= <-]. unfold unitsOf in *. simpl.
      now rewrite (IH rest ltac:(simpl; lia) ts' E).
Qed.

Lemma utf16_length v : (length (URI.utf16 v) <= 2)%nat.
Proof. unfold URI.utf16. destruct (v <? 65536)%N; simpl; lia. Qed.

Lemma decode_length n : forall ts r,
  (length ts <= n)%nat -> URI.decode ts = Some r ->
  (length r <= unitsOf ts)%nat.
Proof.
  induction n as [|n IH]; intros ts r Hn Hr.
  - destruct ts; [|simpl in Hn; lia]. injection Hr as <-. simpl. lia.
  - destruct ts as [|[c|b h1 h2] ts]; simpl in Hr.
    + injection Hr as <-. simpl. lia.
    + destruct (URI.decode ts) as [r'|] eqn:E; [|discriminate].
      injection Hr as <-. simpl in Hn.
      specialize (IH ts r' ltac:(lia) E). unfold unitsOf in *. simpl. lia.
    + unfold unitsOf in *. simpl in Hn |- *.
      pose proof utf16_length as Hu.
      repeat match type of Hr with
      | (if ?c then _ else _) = _ => destruct c
      | match ?l with [] => _ | _ :: _ => _ end = _ => destruct l; simpl in Hn
      | match URI.continuation ?t with _ => _ end = _ =>
          destruct (URI.continuation t)
      | match URI.scalar ?a ?b with _ => _ end = _ =>
          destruct (URI.scalar a b) eqn:?
      | option_map _ (URI.decode ?l) = _ =>
          let E := fresh "E" in
          destruct (URI.decode l) eqn:E; simpl in Hr;
          [apply IH in E; [|simpl; lia]|]
      end; try discriminate;
      injection Hr as <-; rewrite ?length_app; simpl;
      try match goal with |- context [URI.utf16 ?v] => specialize (Hu v) end;
      simpl in *; try lia.
      destruct (URI.preserved b); simpl; lia.
Qed.

Lemma decodeURI_length s r :
  URI.decodeURI s = Return r -> (length r <= length s)%nat.
Proof.
  unfold URI.decodeURI.
  destruct (URI.tokens s) as [ts|] eqn:Hts; [|discriminate].
  destruct (URI.decode ts) as [r'|] eqn:Hr; [|discriminate].
  intros [= <-]. rewrite <- (tokens_units_of s ts Hts).
  now apply (decode_length (length ts)).
Qed.

(** X9.  Decoding never lengthens: [public_linkedin_identifier] has at
    most as many code units as the user name it was decoded from. *)
Theorem identifier_not_longer_than_username (clock : Clock)
    (profile : Profile.t) (out : Output.t) :
  processProfile clock profile = Return out ->
  (length (Output.public_linkedin_identifier out)
   <= length (toString (Profile.username profile)))%nat.
Proof.
  intros Hout.
  apply processProfile_inv in Hout as (languages & id & _ & Hid & ->).
  now apply decodeURI_length.
Qed.

(** An instance: [jos%C3%A9] has nine code units and decodes to four. *)
Lemma identifier_not_longer_than_username_witness :
  exists out,
    processProfile (still nov2026) (profileOf (js"jos%C3%A9") (Some []) [])
    = Return out
    /\ (length (Output.public_linkedin_identifier out) <= 9)%nat.
Proof.
  eexists. split; [vm_compute; reflexivity|].
  apply (identifier_not_longer_than_username (still nov2026)
           (profileOf (js"jos%C3%A9") (Some []) [])).
  reflexivity.
Defined.

(** ** The educations *)

Lemma keepsEducation_entry edu :
  keepsEducation (educationEntryOf edu) = describesEducation edu.
Proof.
  unfold keepsEducation, educationEntryOf, describesEducation.
  cbn [EducationEntry.degree EducationEntry.school].
  destruct (Education.degree edu) as [[|c1 d]|],
           (Education.fieldOfStudy edu) as [[|c2 f]|],
           (Education.schoolName edu) as [[|c3 s]|]; reflexivity.
Qed.

Lemma educationEntryOf_fields edu :
  EducationEntry.degree (educationEntryOf edu) <> Some []
  /\ EducationEntry.date (educationEntryOf edu) <> Some [].
Proof.
  unfold educationEntryOf. cbn [EducationEntry.degree EducationEntry.date].
  split.
  - destruct (orElse (Education.degree edu) []) as [|c1 d],
             (orElse (Education.fieldOfStudy edu) []) as [|c2 f];
      simpl; discriminate.
  - destruct (yearOf (Education.start edu)) as [s|],
             (yearOf (Education.end_ edu)) as [e|]; try discriminate.
    destruct (JSString.ofZ s ++ js" - " ++ JSString.ofZ e) eqn:E;
      [|discriminate].
    apply app_eq_nil in E as [_ E]. discriminate.
Qed.

Lemma filter_map_entries (l : list Education.t) :
  List.filter keepsEducation (map educationEntryOf l)
  = map educationEntryOf (List.filter describesEducation l).
Proof.
  induction l as [|edu l IH]; [reflexivity|]. simpl.
  rewrite keepsEducation_entry, IH. now destruct (describesEducation edu).
Qed.

(** X10.  The educations of the output are the entries of the educations
    that have a degree, a field of study or a school name, in their order;
    an education with none of the three is dropped even when it has dates.
    No entry carries an empty degree or an empty date. *)
Theorem educations_are_filtered (clock : Clock) (profile : Profile.t)
    (out : Output.t) :
  processProfile clock profile = Return out ->
  Output.educations out
  = map educationEntryOf
      (List.filter describesEducation (default [] (Profile.educations profile)))
  /\ Forall (fun entry =>
               EducationEntry.degree entry <> Some []
               /\ EducationEntry.date entry <> Some []
               /\ (EducationEntry.degree entry <> None
                   \/ EducationEntry.school entry <> []))
       (Output.educations out).
Proof.
  intros Hout.
  apply processProfile_inv in Hout as (languages & id & _ & _ & ->).
  cbn [Output.educations recordOf]. unfold educationsArray.
  destruct (Profile.educations profile) as [l|]; simpl; [|now split].
  rewrite filter_map_entries. split; [reflexivity|].
  apply Forall_forall. intros entry Hentry.
  apply list_elem_of_In, in_map_iff in Hentry as (edu & <- & Hedu).
  apply filter_In in Hedu as [_ Hedu].
  destruct (educationEntryOf_fields edu) as [Hd Hdate].
  split; [exact Hd|]. split; [exact Hdate|].
  rewrite <- keepsEducation_entry in Hedu. unfold keepsEducation in Hedu.
  apply orb_true_iff in Hedu as [Hedu | Hedu].
  - left. now destruct (EducationEntry.degree (educationEntryOf edu)).
  - right. now destruct (EducationEntry.school (educationEntryOf edu)).
Qed.

(** An instance: an education with dates only is dropped, the one with a
    school is kept. *)
Lemma educations_are_filtered_witness :
  exists out,
    processProfile (still nov2026)
      (educated [studied None None 2001; studied None (Some (js"MIT")) 2005])
    = Return out
    /\ Output.educations out
       = [EducationEntry.Build (Some (js"Depuis 2005")) None (js"MIT")].
Proof.
  eexists. split; [vm_compute; reflexivity|].
  apply (educations_are_filtered (still nov2026)
           (educated [studied None None 2001; studied None (Some (js"MIT")) 2005])).
  reflexivity.
Defined.

(** ** The current position *)

Lemma isCurrent_ended pos : isCurrent pos = false <-> hasEnded pos.
Proof.
  unfold isCurrent, hasEnded. split.
  - destruct (Position.end_ pos) as [e|]; [|discriminate].
    destruct (PositionDate.year e) as [[|y|y]|] eqn:Hy; try discriminate;
      intros _; eexists e, _; (split; [reflexivity|]); split; eauto; lia.
  - intros (e & y & -> & -> & Hy). now destruct y.
Qed.

Lemma find_current pre : forall p post,
  Forall hasEnded pre -> isCurrent p = true ->
  List.find isCurrent (pre ++ p :: post) = Some p.
Proof.
  induction pre as [|x pre IH]; intros p post Hpre Hp; simpl.
  - now rewrite Hp.
  - apply Forall_cons in Hpre as [Hx Hpre]. apply isCurrent_ended in Hx.
    rewrite Hx. now apply IH.
Qed.

Lemma find_current_none ps :
  Forall hasEnded ps -> List.find isCurrent ps = None.
Proof.
  induction ps as [|x ps IH]; intros Hps; [reflexivity|]. simpl.
  apply Forall_cons in Hps as [Hx Hps]. apply isCurrent_ended in Hx.
  rewrite Hx. now apply IH.
Qed.

(** X11.  The five [current_*] fields come from the first position that
    has not ended, that is whose [end] is absent or holds no year, even
    when positions listed after it have ended; they are empty strings when
    every position has ended. *)
Theorem current_fields_of_first_open_position (clock : Clock)
    (profile : Profile.t) (out : Output.t) :
  processProfile clock profile = Return out ->
  (forall pre p post,
     positionsOf profile = pre ++ p :: post ->
     Forall hasEnded pre -> ~ hasEnded p ->
     Output.current_industry out = orElse (Position.companyIndustry p) []
     /\ Output.current_job_title out = orElse (Position.title p) []
     /\ Output.current_company out = orElse (Position.companyName p) []
     /\ Output.current_employment_type out
        = orElse (Position.employmentType p) []
     /\ Output.current_company_employee_range out
        = orElse (Position.companyStaffCountRange p) [])
  /\ (Forall hasEnded (positionsOf profile) ->
      Output.current_industry out = []
      /\ Output.current_job_title out = []
      /\ Output.current_company out = []
      /\ Output.current_employment_type out = []
      /\ Output.current_company_employee_range out = []).
Proof.
  intros Hout.
  apply processProfile_inv in Hout as (languages & id & _ & _ & ->).
  unfold recordOf, currentPosition.
  cbn [Output.current_industry Output.current_job_title Output.current_company
       Output.current_employment_type Output.current_company_employee_range].
  split.
  - intros pre p post -> Hpre Hp.
    rewrite find_current; [now repeat split | exact Hpre |].
    destruct (isCurrent p) eqn:E; [reflexivity|].
    now apply isCurrent_ended in E.
  - intros Hall. rewrite find_current_none by exact Hall. now repeat split.
Qed.

(** An instance: the second position is open, the first and the third
    have ended. *)
Lemma current_fields_of_first_open_position_witness :
  exists out,
    processProfile (still nov2026)
      (profileOf (js"jo") (Some [])
         [dated (js"Eng") (Some (yearOnly 2010)) (Some (yearOnly 2012));
          dated (js"Lead") (Some (yearOnly 2020)) None;
          dated (js"Sr") (Some (yearOnly 2012)) (Some (yearOnly 2020))])
    = Return out
    /\ Output.current_job_title out = js"Lead".
Proof.
  eexists. split; [vm_compute; reflexivity|].
  destruct (current_fields_of_first_open_position (still nov2026)
      (profileOf (js"jo") (Some [])
         [dated (js"Eng") (Some (yearOnly 2010)) (Some (yearOnly 2012));
          dated (js"Lead") (Some (yearOnly 2020)) None;
          dated (js"Sr") (Some (yearOnly 2012)) (Some (yearOnly 2020))])
      _ eq_refl) as [Hopen _].
  refine (proj1 (proj2 (Hopen
    [dated (js"Eng") (Some (yearOnly 2010)) (Some (yearOnly 2012))]
    (dated (js"Lead") (Some (yearOnly 2020)) None)
    [dated (js"Sr") (Some (yearOnly 2012)) (Some (yearOnly 2020))]
    eq_refl _ _))).
  - repeat constructor. eexists _, 2012. repeat split. lia.
  - intros (e & y & He & _). discriminate.
Defined.

(** ** The languages *)

Lemma oneOf_spec list v :
  oneOf list v = true <-> exists s, v = Some s /\ s ∈ list.
Proof.
  unfold oneOf. destruct v as [s|].
  - rewrite existsb_eqb. split; [eauto | now intros (s' & [= <-] & H)].
  - split; [discriminate | now intros (s & H & _)].
Qed.

Lemma listed_spec list names :
  existsb (oneOf list) names = true
  <-> exists s, s ∈ list /\ Some s ∈ names.
Proof.
  rewrite existsb_exists. split.
  - intros (v & Hv & Hone). apply oneOf_spec in Hone as (s & -> & Hs).
    exists s. split; [exact Hs | now apply list_elem_of_In].
  - intros (s & Hs & Hin). exists (Some s).
    split; [now apply list_elem_of_In | apply oneOf_spec; eauto].
Qed.

(** The languages of the output, whether the profile lists languages or
    not: the listed names, followed by the language of the first locale
    when that language is not listed. *)
Lemma languagesOf_spec profile languages :
  languagesOf profile = Return languages ->
  exists extra,
    languages = joinOpt (js", ") (listedLanguages profile ++ map Some extra)
    /\ extra
       = (if oneOf [js"FR"] (localeCountry profile)
             && negb (existsb (oneOf [Francais; js"French"])
                        (listedLanguages profile))
          then [Francais]
          else if oneOf [js"US"; js"EN"] (localeCountry profile)
                  && negb (existsb (oneOf [js"English"])
                             (listedLanguages profile))
          then [js"English"]
          else []).
Proof.
  intros Hl.
  assert (Hc : firstLocaleCountry profile = Return (localeCountry profile)).
  { unfold firstLocaleCountry, localeCountry.
    destruct (Profile.supportedLocales profile) as [[|loc locales]|] eqn:E;
      try reflexivity.
    rewrite (languagesOf_absent profile E) in Hl. discriminate. }
  revert Hl. unfold languagesOf, listedLanguages. rewrite Hc.
  set (country := localeCountry profile).
  assert (Hexcl : oneOf [js"FR"] country = true ->
                  oneOf [js"US"; js"EN"] country = false).
  { unfold oneOf. destruct country as [s|]; [|discriminate]. simpl.
    rewrite !orb_false_r. intros H. apply eqb_eq in H as ->. reflexivity. }
  destruct (Profile.languages profile) as [[|e l]|];
    [change (map nameOf (default [] (Some (@nil (option Named.t)))))
       with (@nil (option jsstring))
    |change (map nameOf (default [] (Some (e :: l))))
       with (map nameOf (e :: l));
     destruct (namesOf (e :: l)) as [names|] eqn:Hn;
       [|cbn [bind]; discriminate];
     apply namesOf_returns in Hn as [_ Hn]; rewrite <- Hn; clear Hn
    |change (map nameOf (default [] (@None (list (option Named.t)))))
       with (@nil (option jsstring))];
    cbv beta iota zeta; unfold bind; cbv beta iota;
    (destruct (oneOf [js"FR"] country) eqn:Hfr;
       [rewrite (Hexcl eq_refl)|destruct (oneOf [js"US"; js"EN"] country)]);
    cbn [andb negb existsb]; cbv beta iota;
    try destruct (existsb (oneOf [Francais; js"French"]) names);
    cbn [andb negb existsb]; cbv beta iota;
    try destruct (existsb (oneOf [js"English"]) names);
    cbn [andb negb existsb]; cbv beta iota; intros [= <-];
    eexists; (split; [|reflexivity]); cbn [map];
    rewrite ?app_nil_r; reflexivity.
Qed.

(** X12.  The languages of the output are the names the profile lists, in
    their order, joined by ", ", followed by at most one more: "Français"
    when the country of the first locale is FR and neither "Français" nor
    "French" is listed, "English" when that country is US or EN and
    "English" is not listed.  A profile that lists no language follows the
    same rule. *)
Theorem languages_follow_the_locale (clock : Clock) (profile : Profile.t)
    (out : Output.t) :
  processProfile clock profile = Return out ->
  exists extra,
    Output.languages out
    = joinOpt (js", ") (listedLanguages profile ++ map Some extra)
    /\ (extra = [Francais]
        <-> localeCountry profile = Some (js"FR")
            /\ (Some Francais ∉ listedLanguages profile)
            /\ (Some (js"French") ∉ listedLanguages profile))
    /\ (extra = [js"English"]
        <-> (localeCountry profile = Some (js"US")
             \/ localeCountry profile = Some (js"EN"))
            /\ (Some (js"English") ∉ listedLanguages profile))
    /\ (extra = [] \/ extra = [Francais] \/ extra = [js"English"]).
Proof.
  intros Hout.
  apply processProfile_inv in Hout as (languages & id & Hl & _ & ->).
  destruct (languagesOf_spec profile languages Hl) as (extra & -> & Hextra).
  exists extra. split; [reflexivity|].
  assert (Hfr : oneOf [js"FR"] (localeCountry profile) = true
                <-> localeCountry profile = Some (js"FR")).
  { rewrite oneOf_spec. split.
    - intros (s & -> & Hs). apply list_elem_of_singleton in Hs. now subst.
    - intros ->. eexists. split; [reflexivity | now apply list_elem_of_singleton]. }
  assert (Hus : oneOf [js"US"; js"EN"] (localeCountry profile) = true
                <-> localeCountry profile = Some (js"US")
                    \/ localeCountry profile = Some (js"EN")).
  { rewrite oneOf_spec. split.
    - intros (s & -> & Hs). apply elem_of_cons in Hs as [-> | Hs]; [now left|].
      apply list_elem_of_singleton in Hs. subst. now right.
    - intros [-> | ->]; eexists; (split; [reflexivity|]);
        [apply elem_of_cons; now left|].
      apply elem_of_cons. right. now apply list_elem_of_singleton. }
  assert (Hlf : existsb (oneOf [Francais; js"French"]) (listedLanguages profile)
                = false
                <-> (Some Francais ∉ listedLanguages profile)
                    /\ (Some (js"French") ∉ listedLanguages profile)).
  { rewrite <- not_true_iff_false, listed_spec. split.
    - intros H. split; intros Hin; apply H; eexists; (split; [|exact Hin]);
        [apply elem_of_cons; now left|].
      apply elem_of_cons. right. now apply list_elem_of_singleton.
    - intros [H1 H2] (s & Hs & Hin).
      apply elem_of_cons in Hs as [-> | Hs]; [contradiction|].
      apply list_elem_of_singleton in Hs. subst. contradiction. }
  assert (Hle : existsb (oneOf [js"English"]) (listedLanguages profile) = false
                <-> (Some (js"English") ∉ listedLanguages profile)).
  { rewrite <- not_true_iff_false, listed_spec. split.
    - intros H Hin. apply H. eexists. split; [|exact Hin].
      now apply list_elem_of_singleton.
    - intros H (s & Hs & Hin). apply list_elem_of_singleton in Hs.
      subst. contradiction. }
  assert (Hne : Francais <> js"English") by discriminate.
  assert (Hexcl : localeCountry profile = Some (js"FR") ->
                  ~ (localeCountry profile = Some (js"US")
                     \/ localeCountry profile = Some (js"EN"))).
  { intros -> [H | H]; discriminate. }
  destruct (oneOf [js"FR"] (localeCountry profile));
    destruct (existsb (oneOf [Francais; js"French"]) (listedLanguages profile));
    destruct (oneOf [js"US"; js"EN"] (localeCountry profile));
    destruct (existsb (oneOf [js"English"]) (listedLanguages profile));
    cbn [andb negb] in Hextra; subst extra;
    assert (Htt : true = true) by reflexivity;
    assert (Hff : false = false) by reflexivity;
    assert (Htf : true <> false) by discriminate;
    assert (Hft : false <> true) by discriminate;
    (split; [|split]);
    try (split; [intros [= ?] | intros ?]);
    try tauto;
    try (left; reflexivity); try (right; left; reflexivity);
    try (right; right; reflexivity).
Qed.

(** An instance: French is listed and the first locale is FR; nothing is
    added. *)
Lemma languages_follow_the_locale_witness :
  exists out,
    processProfile (still nov2026) (speaking [js"French"; js"Deutsch"] (js"FR"))
    = Return out
    /\ Output.languages out = js"French, Deutsch".
Proof.
  eexists. split; [vm_compute; reflexivity|].
  destruct (languages_follow_the_locale (still nov2026)
              (speaking [js"French"; js"Deutsch"] (js"FR")) _ eq_refl)
    as (extra & Hlang & _).
  reflexivity.
Defined.
(** ** More on the seniority *)

(** The years of experience are those of the least start that counts. *)
Lemma years_of_least now positions m :
  m ∈ qualifyingStarts now positions ->
  (forall s, s ∈ qualifyingStarts now positions -> m <= s) ->
  yearsOfExperience (JSDate.Time now) positions
  = JSMath.ofZ ((2 * (now - m) + 31557600000) / 63115200000).
Proof.
  intros Hm Hleast.
  destruct (yearsOfExperience_spec now positions)
    as [[Hnil _] | (m' & Hm' & Hleast' & ->)].
  - rewrite Hnil in Hm. now apply elem_of_nil in Hm.
  - assert (m' = m) as -> by (specialize (Hleast m' Hm');
                              specialize (Hleast' m Hm); lia).
    apply round_years.
Qed.

Lemma years_of_none now positions :
  qualifyingStarts now positions = [] ->
  yearsOfExperience (JSDate.Time now) positions = Num 99.
Proof.
  intros Hnil.
  destruct (yearsOfExperience_spec now positions)
    as [[_ ->] | (m & Hm & _)]; [reflexivity|].
  rewrite Hnil in Hm. now apply elem_of_nil in Hm.
Qed.

(** The years of experience depend on the starts that count, not on
    their order or on how often each occurs. *)
Lemma years_of_same_starts now ps ps' :
  (forall s, s ∈ qualifyingStarts now ps <-> s ∈ qualifyingStarts now ps') ->
  yearsOfExperience (JSDate.Time now) ps
  = yearsOfExperience (JSDate.Time now) ps'.
Proof.
  intros Hsame.
  destruct (yearsOfExperience_spec now ps)
    as [[Hnil ->] | (m & Hm & Hleast & ->)].
  - symmetry. apply years_of_none. apply elem_of_nil_inv. intros s Hs.
    apply Hsame in Hs. rewrite Hnil in Hs. now apply elem_of_nil in Hs.
  - rewrite round_years. symmetry. apply years_of_least.
    + now apply Hsame.
    + intros s Hs. now apply Hleast, Hsame.
Qed.

(** X13.  The years of experience do not depend on the order of the
    positions. *)
Theorem years_do_not_depend_on_order (now : Z) (ps ps' : list Position.t) :
  ps ≡ₚ ps' ->
  yearsOfExperience (JSDate.Time now) ps
  = yearsOfExperience (JSDate.Time now) ps'.
Proof.
  intros Hperm. apply years_of_same_starts. intros s.
  unfold qualifyingStarts. now rewrite Hperm.
Qed.

(** An instance: two positions, in either order. *)
Lemma years_do_not_depend_on_order_witness :
  yearsOfExperience (JSDate.Time nov2026) [since2020; endsIn2030]
  = yearsOfExperience (JSDate.Time nov2026) [endsIn2030; since2020].
Proof.
  apply years_do_not_depend_on_order. apply Permutation_swap.
Defined.

(** X14.  A position that does not count, because it is an internship or
    volunteer work, has no start date that resolves, or lasts less than
    seven months, can be added or removed anywhere without changing the
    years of experience. *)
Theorem years_ignore_other_positions (now : Z) (pre post : list Position.t)
    (x : Position.t) :
  qualifyingStart now x = None ->
  yearsOfExperience (JSDate.Time now) (pre ++ x :: post)
  = yearsOfExperience (JSDate.Time now) (pre ++ post).
Proof.
  intros Hx. apply years_of_same_starts. intros s.
  unfold qualifyingStarts. rewrite !omap_app. simpl. now rewrite Hx.
Qed.

(** An instance: a position whose title holds "stagiaire". *)
Lemma years_ignore_other_positions_witness :
  yearsOfExperience (JSDate.Time nov2026)
    ([since2020]
     ++ dated (js"Stagiaire") (Some (yearOnly 2001)) (Some (yearOnly 2003)) :: [])
  = yearsOfExperience (JSDate.Time nov2026) ([since2020] ++ []).
Proof.
  apply years_ignore_other_positions. reflexivity.
Defined.

Lemma qualifyingStart_later now now' pos s :
  now <= now' ->
  qualifyingStart now pos = Some s -> qualifyingStart now' pos = Some s.
Proof.
  intros Hle. unfold qualifyingStart, endDateOf.
  destruct (isExcludedPosition pos); [discriminate|].
  destruct (createDateFromPositionDate (Position.start pos)) as [[|s0]|];
    try discriminate.
  destruct (createDateFromPositionDate (Position.end_ pos)) as [[|e]|];
    try discriminate; try (intros H; exact H).
  destruct (sevenMonths <=? now - s0) eqn:H7; [|discriminate].
  intros [= <-]. apply Z.leb_le in H7.
  now rewrite (proj2 (Z.leb_le sevenMonths (now' - s0))) by lia.
Qed.

(** X15.  Once some position counts, the years of experience never
    decrease as [now] advances: a later [now] gives at least as many
    years. *)
Theorem years_grow_with_now (now now' : Z) (positions : list Position.t) :
  now <= now' ->
  qualifyingStarts now positions <> [] ->
  exists k k',
    yearsOfExperience (JSDate.Time now) positions = JSMath.ofZ k
    /\ yearsOfExperience (JSDate.Time now') positions = JSMath.ofZ k'
    /\ k <= k'.
Proof.
  intros Hle Hsome.
  destruct (yearsOfExperience_spec now positions)
    as [[Hnil _] | (m & Hm & Hleast & Hy)]; [contradiction|].
  assert (Hm' : m ∈ qualifyingStarts now' positions).
  { unfold qualifyingStarts in *.
    apply list_elem_of_omap in Hm as (pos & Hpos & Hq).
    apply list_elem_of_omap. exists pos. split; [exact Hpos|].
    now apply (qualifyingStart_later now now'). }
  destruct (yearsOfExperience_spec now' positions)
    as [[Hnil _] | (m' & Hin' & Hleast' & Hy')].
  { rewrite Hnil in Hm'. now apply elem_of_nil in Hm'. }
  rewrite Hy, Hy', !round_years. eexists _, _.
  split; [reflexivity|]. split; [reflexivity|].
  specialize (Hleast' m Hm').
  apply Z.div_le_mono; lia.
Qed.

(** An instance: November 2026 and a year later. *)
Lemma years_grow_with_now_witness :
  exists k k',
    yearsOfExperience (JSDate.Time nov2026) [since2020] = JSMath.ofZ k
    /\ yearsOfExperience (JSDate.Time (nov2026 + 31557600000)) [since2020]
       = JSMath.ofZ k'
    /\ k <= k'.
Proof.
  apply years_grow_with_now; [unfold nov2026; lia | discriminate].
Defined.
(** ** More on the grouping *)

Lemma experiences_adjacent clock kw ps : forall gs1 g1 g2 gs2,
  experiencesOf clock kw ps = gs1 ++ g1 :: g2 :: gs2 ->
  Experience.companyId g1 <> Experience.companyId g2.
Proof.
  induction ps as [|q ps IH] using rev_ind; intros gs1 g1 g2 gs2 H.
  - now destruct gs1.
  - destruct (snoc_cases ps) as [-> | (ps' & p & ->)].
    + destruct gs1 as [|? [|? ?]]; discriminate.
    + destruct (experiences_snoc clock kw ps' p) as (gs & g & Hps & Hid & _ & Hq).
      rewrite Hq in H. clear Hq. rewrite Hps in IH.
      destruct (snoc_cases gs2) as [-> | (gs2' & x & ->)].
      * case_bool_decide as Hsame.
        -- change (gs1 ++ [g1; g2]) with (gs1 ++ [g1] ++ [g2]) in H.
           rewrite app_assoc in H. apply app_inj_tail in H as [-> <-].
           simpl. rewrite <- app_assoc in IH.
           apply (IH gs1 g1 g []). reflexivity.
        -- change (gs ++ [g; newExperienceEntry q
                     (jobEntryOf (newDate clock (S (length ps'))) q)])
             with (gs ++ [g] ++ [newExperienceEntry q
                     (jobEntryOf (newDate clock (S (length ps'))) q)]) in H.
           change (gs1 ++ [g1; g2]) with (gs1 ++ [g1] ++ [g2]) in H.
           rewrite !app_assoc in H. apply app_inj_tail in H as [H <-].
           apply app_inj_tail in H as [_ <-].
           simpl. unfold companyIdOf in *. congruence.
      * change (gs1 ++ g1 :: g2 :: gs2' ++ [x])
          with (gs1 ++ (g1 :: g2 :: gs2') ++ [x]) in H.
        rewrite app_assoc in H.
        case_bool_decide as Hsame.
        -- apply app_inj_tail in H as [-> _].
           apply (IH gs1 g1 g2 (gs2' ++ [g])).
           now rewrite <- app_assoc.
        -- change (gs ++ [g; newExperienceEntry q
                     (jobEntryOf (newDate clock (S (length ps'))) q)])
             with (gs ++ [g] ++ [newExperienceEntry q
                     (jobEntryOf (newDate clock (S (length ps'))) q)]) in H.
           rewrite app_assoc in H. apply app_inj_tail in H as [H _].
           apply (IH gs1 g1 g2 gs2'). exact H.
Qed.

(** X16.  Two experience groups that follow each other never have the
    same [companyId], there are at most as many groups as positions, and a
    profile with a position has a group. *)
Theorem neighbouring_groups_differ (clock : Clock) (profile : Profile.t)
    (out : Output.t) :
  processProfile clock profile = Return out ->
  (forall gs1 g1 g2 gs2,
     Output.experiences out = gs1 ++ g1 :: g2 :: gs2 ->
     Experience.companyId g1 <> Experience.companyId g2)
  /\ (length (Output.experiences out) <= length (positionsOf profile))%nat
  /\ (positionsOf profile <> [] -> Output.experiences out <> []).
Proof.
  intros Hout. apply processProfile_returns in Hout as [-> _].
  split; [apply experiences_adjacent|]. split.
  - pose proof (experiences_jobs clock (profileKeywords profile)
                  (positionsOf profile)) as Hjobs.
    pose proof (experiences_jobs_nonempty clock (profileKeywords profile)
                  (positionsOf profile)) as Hne.
    apply (f_equal (@length _)) in Hjobs.
    unfold jobsFrom in Hjobs. rewrite length_imap in Hjobs. rewrite <- Hjobs.
    clear Hjobs.
    induction Hne as [|g gs Hg _ IH]; simpl; [lia|].
    rewrite length_app. destruct (Experience.jobs g); [contradiction|].
    simpl. lia.
  - intros Hps Hnil. now apply experiences_nonempty in Hnil.
Qed.

(** An instance: the companies A, A, B, A give the groups A, B, A. *)
Lemma neighbouring_groups_differ_witness :
  exists out,
    processProfile (still nov2026)
      (profileOf (js"jo") (Some [])
         [titled (js"A") (js"Eng"); titled (js"A") (js"Sr Eng");
          titled (js"B") (js"Lead"); titled (js"A") (js"CTO")]) = Return out
    /\ map Experience.companyId (Output.experiences out)
       = [js"A"; js"B"; js"A"]
    /\ (length (Output.experiences out) <= 4)%nat.
Proof.
  eexists. split; [vm_compute; reflexivity|]. split; [reflexivity|].
  apply (neighbouring_groups_differ (still nov2026)
      (profileOf (js"jo") (Some [])
         [titled (js"A") (js"Eng"); titled (js"A") (js"Sr Eng");
          titled (js"B") (js"Lead"); titled (js"A") (js"CTO")])).
  reflexivity.
Defined.

(** ** The endpoint [POST /api/process-profiles] *)

Lemma processAll_spec clock profiles : forall k outs k',
  Batch.processAll clock k profiles = Return (outs, k') ->
  Forall2 (fun p out => exists j, processProfile (Batch.later clock j) p = Return out)
    profiles outs
  /\ k' = (k + list_sum (map Batch.readingsOf profiles))%nat.
Proof.
  induction profiles as [|p rest IH]; intros k outs k'; simpl.
  - intros [= <- <-]. split; [constructor | lia].
  - destruct (processProfile (Batch.later clock k) p) as [out|] eqn:Hp;
      [|discriminate]. cbn [bind].
    destruct (Batch.processAll clock (k + Batch.readingsOf p) rest)
      as [[outs' k'']|] eqn:Hrest; [|discriminate]. cbn [bind].
    intros [= <- <-]. destruct (IH _ _ _ Hrest) as [Hall ->].
    split; [constructor; eauto|].
    unfold Batch.readingsOf. simpl. lia.
Qed.




(** The items kept when no item is [null], and the exception when one
    is. *)
Lemma filter_objects n8n items :
  (Batch.Null ∉ items) ->
  exists kept,
    Batch.filter (Batch.keeps n8n) items = Return kept
    /\ omap Batch.payload kept = omap (Batch.kept n8n) items.
Proof.
  induction items as [|el items IH]; intros Hnull; [now exists []|].
  destruct IH as (kept & Hkept & Hpay).
  { intros H. apply Hnull. now apply list_elem_of_further. }
  destruct el as [|p|p].
  - exfalso. apply Hnull. apply list_elem_of_here.
  - cbn [Batch.filter Batch.keeps bind]. rewrite Hkept. cbn [bind].
    destruct n8n; [destruct (Batch.hasUrn p) eqn:Hurn|]; eexists;
      (split; [reflexivity|]);
      cbn [omap list_omap Batch.payload Batch.kept]; rewrite ?Hurn;
      now rewrite Hpay.
  - cbn [Batch.filter Batch.keeps bind]. rewrite Hkept. cbn [bind].
    destruct n8n; [|destruct (Batch.hasUrn p) eqn:Hurn]; eexists;
      (split; [reflexivity|]);
      cbn [omap list_omap Batch.payload Batch.kept]; rewrite ?Hurn;
      now rewrite Hpay.
Qed.

Lemma filter_null n8n items :
  Batch.Null ∈ items ->
  Batch.filter (Batch.keeps n8n) items = Throw TypeError.
Proof.
  induction items as [|el items IH]; intros Hnull;
    [now apply elem_of_nil in Hnull|].
  destruct el as [|p|p]; [reflexivity| |];
    (apply elem_of_cons in Hnull as [Hnull | Hnull]; [discriminate|]);
    simpl; now rewrite (IH Hnull).
Qed.

Lemma null_item_or_not (items : list Batch.item) :
  Batch.Null ∈ items \/ Batch.Null ∉ items.
Proof.
  induction items as [|el items IH].
  - right. apply not_elem_of_nil.
  - destruct el as [|p|p]; [left; apply list_elem_of_here| |];
      (destruct IH as [H | H]; [left; now apply list_elem_of_further|]);
      right; intros [? | ?]%elem_of_cons; try discriminate; contradiction.
Qed.

(** The response to an array: status 500 with a [TypeError] when an item
    is [null]; otherwise what the loop over the profiles kept gives. *)
Lemma processProfiles_array clock items :
  (Batch.Null ∈ items
   /\ Batch.processProfiles clock (Batch.Array items)
      = Batch.ServerError TypeError)
  \/ ((Batch.Null ∉ items)
      /\ Batch.processProfiles clock (Batch.Array items)
         = match Batch.processAll clock 1 (Batch.profilesOf items) with
           | Return (outputItems, k) =>
               Batch.Ok outputItems
                 (Batch.Meta (length outputItems)
                    (length (Batch.profilesOf items)) (length items)
                    (clock k - clock 0%nat))
           | Throw e => Batch.ServerError e
           end).
Proof.
  unfold Batch.processProfiles, Batch.respond, Batch.filteredItems.
  destruct (null_item_or_not items) as [Hnull | Hnull].
  - left. split; [exact Hnull|].
    destruct items as [|[|p|p] items]; try reflexivity;
      cbn [Batch.firstItemKeys bind]; now rewrite (filter_null _ _ Hnull).
  - right. split; [exact Hnull|].
    destruct (filter_objects (Batch.isN8n items) items Hnull)
      as (kept & -> & Hpay).
    assert (Batch.firstItemKeys items = Return tt) as ->.
    { destruct items as [|[|p|p] items]; try reflexivity.
      exfalso. apply Hnull. apply list_elem_of_here. }
    cbn [bind]. rewrite Hpay. fold (Batch.profilesOf items).
    now destruct (Batch.processAll clock 1 (Batch.profilesOf items))
      as [[outputItems k]|e].
Qed.

Lemma omap_length_le {A B} (f : A -> option B) (l : list A) :
  (length (omap f l) <= length l)%nat.
Proof.
  induction l as [|a l IH]; [simpl; lia|].
  change (omap f (a :: l))
    with (match f a with Some b => b :: omap f l | None => omap f l end).
  destruct (f a); simpl; lia.
Qed.

(** X17.  In a response with status 200 the items are the records of the
    profiles kept, in the order of the input: the profiles of the items
    that have [urn], in the format that the first item shows.  Each record
    is what [processProfile] returns for its profile and carries that
    profile in [profil_details].  In the metadata [processed] and
    [filtered] are both the number of profiles kept, [total] is the number
    of items received, and never less. *)
Theorem batch_records_and_counts (clock : Clock) (items : list Batch.item)
    (outs : list Output.t) (meta : Batch.metadata) :
  Batch.processProfiles clock (Batch.Array items) = Batch.Ok outs meta ->
  Forall2
    (fun p out => exists j, processProfile (Batch.later clock j) p = Return out)
    (Batch.profilesOf items) outs
  /\ map Output.profil_details outs = Batch.profilesOf items
  /\ Batch.processed meta = length (Batch.profilesOf items)
  /\ Batch.filtered meta = length (Batch.profilesOf items)
  /\ Batch.total meta = length items
  /\ (Batch.processed meta <= Batch.total meta)%nat.
Proof.
  destruct (processProfiles_array clock items) as [[_ ->] | [_ ->]];
    [discriminate|].
  destruct (Batch.processAll clock 1 (Batch.profilesOf items))
    as [[outputItems k]|] eqn:Hall; [|discriminate].
  intros [= <- <-]. cbn [Batch.processed Batch.filtered Batch.total].
  destruct (processAll_spec _ _ _ _ _ Hall) as [Hrec _].
  assert (Hlen : length outputItems = length (Batch.profilesOf items))
    by (symmetry; eapply Forall2_length; exact Hrec).
  split; [exact Hrec|]. split; [|split; [exact Hlen|]].
  - clear Hall Hlen. induction Hrec as [|p out ps os [j Hp] _ IH];
      [reflexivity|].
    simpl. rewrite IH. f_equal.
    now apply processProfile_inv in Hp as (languages & id & _ & _ & ->).
  - split; [reflexivity|]. split; [reflexivity|]. rewrite Hlen.
    apply omap_length_le.
Qed.

(** An instance: two wrapped profiles with [urn] and a plain one, which
    the n8n format drops. *)
Lemma batch_records_and_counts_witness :
  exists outs meta,
    Batch.processProfiles (still nov2026)
      (Batch.Array [Batch.Wrapped (accepted (js"a")); Batch.Plain (accepted (js"b"));
                    Batch.Wrapped (accepted (js"c"))])
    = Batch.Ok outs meta
    /\ map Output.public_linkedin_identifier outs = [js"a"; js"c"]
    /\ Batch.processed meta = 2%nat
    /\ Batch.filtered meta = 2%nat
    /\ Batch.total meta = 3%nat.
Proof.
  eexists _, _. split; [vm_compute; reflexivity|].
  split; [reflexivity|].
  destruct (batch_records_and_counts (still nov2026)
      [Batch.Wrapped (accepted (js"a")); Batch.Plain (accepted (js"b"));
       Batch.Wrapped (accepted (js"c"))] _ _ eq_refl)
    as (_ & _ & Hp & Hf & Ht & _).
  split; [exact Hp|]. split; [exact Hf | exact Ht].
Defined.


(** X19.  The processing time sent is the difference between the last
    reading of the clock and the first; between them the handler reads the
    clock once for every position of every profile kept and once more for
    each of these profiles.  With a clock that never goes back it is not
    negative. *)
Theorem batch_processing_time (clock : Clock) (items : list Batch.item)
    (outs : list Output.t) (meta : Batch.metadata) :
  Batch.processProfiles clock (Batch.Array items) = Batch.Ok outs meta ->
  Batch.processingTimeMs meta
  = clock (1 + list_sum (map Batch.readingsOf (Batch.profilesOf items)))%nat
    - clock 0%nat
  /\ ((forall i j, (i <= j)%nat -> clock i <= clock j) ->
      0 <= Batch.processingTimeMs meta).
Proof.
  destruct (processProfiles_array clock items) as [[_ ->] | [_ ->]];
    [discriminate|].
  destruct (Batch.processAll clock 1 (Batch.profilesOf items))
    as [[outputItems k]|] eqn:Hall; [|discriminate].
  intros [= <- <-]. cbn [Batch.processingTimeMs].
  destruct (processAll_spec _ _ _ _ _ Hall) as [_ ->].
  split; [reflexivity|].
  intros Hmono. specialize (Hmono 0%nat
    (1 + list_sum (map Batch.readingsOf (Batch.profilesOf items)))%nat).
  lia.
Qed.

(** An instance: one profile with one position, so two readings between
    the first and the last, under a clock that ticks. *)
Lemma batch_processing_time_witness :
  exists outs meta,
    Batch.processProfiles (ticking nov2026)
      (Batch.Array [Batch.Plain (profileOf (js"jo") (Some []) [since2020])])
    = Batch.Ok outs meta
    /\ Batch.processingTimeMs meta = 3.
Proof.
  eexists _, _. split; [vm_compute; reflexivity|].
  destruct (batch_processing_time (ticking nov2026)
      [Batch.Plain (profileOf (js"jo") (Some []) [since2020])] _ _ eq_refl)
    as [Htime _].
  exact Htime.
Defined.

(** ** The label of a date *)

Lemma DayFromYear_step y :
  JSDate.DayFromYear (y + 1) - JSDate.DayFromYear y
  = if JSDate.InLeapYear y then 366 else 365.
Proof.
  unfold JSDate.DayFromYear, JSDate.InLeapYear.
  destruct (y mod 4 =? 0) eqn:H4; destruct (y mod 100 =? 0) eqn:H100;
    destruct (y mod 400 =? 0) eqn:H400; simpl;
    rewrite ?Z.eqb_eq, ?Z.eqb_neq in *;
    Z.to_euclidean_division_equations; lia.
Qed.

Lemma YearFromTime_day y ms :
  0 <= ms < 365 ->
  JSDate.YearFromTime ((JSDate.DayFromYear y + ms) * JSDate.msPerDay) = y.
Proof.
  intros Hms. unfold JSDate.YearFromTime, JSDate.Day.
  rewrite Z.div_mul by discriminate.
  pose proof (DayFromYear_step y) as Hs.
  pose proof (DayFromYear_step (y - 1)) as Hp.
  replace (y - 1 + 1) with y in Hp by lia.
  set (d := JSDate.DayFromYear y + ms) in *.
  set (y0 := 1970 + d * 10000 / 3652425).
  assert (Hy0 : y0 = y - 1 \/ y0 = y \/ y0 = y + 1).
  { unfold y0, d, JSDate.DayFromYear.
    Z.to_euclidean_division_equations; lia. }
  destruct Hy0 as [E | [E | E]]; rewrite E.
  - replace (y - 1 + 1) with y by lia.
    destruct (JSDate.InLeapYear (y - 1));
    destruct (JSDate.DayFromYear (y - 1) <=? d) eqn:H1;
    destruct (d <? JSDate.DayFromYear y) eqn:H2;
    rewrite ?Z.leb_le, ?Z.leb_gt, ?Z.ltb_lt, ?Z.ltb_ge in *; unfold d in *; lia.
  - destruct (JSDate.InLeapYear y);
    destruct (JSDate.DayFromYear y <=? d) eqn:H1;
    destruct (d <? JSDate.DayFromYear (y + 1)) eqn:H2;
    rewrite ?Z.leb_le, ?Z.leb_gt, ?Z.ltb_lt, ?Z.ltb_ge in *; unfold d in *; lia.
  - pose proof (DayFromYear_step (y + 1)) as Hn.
    destruct (JSDate.InLeapYear y); destruct (JSDate.InLeapYear (y + 1));
    destruct (JSDate.DayFromYear (y + 1) <=? d) eqn:H1;
    rewrite ?Z.leb_le, ?Z.leb_gt, ?Z.ltb_lt, ?Z.ltb_ge in *; unfold d in *;
    try lia.
    all: destruct (d <? JSDate.DayFromYear (y + 1 + 1)); lia.
Qed.

Lemma monthStart_bounds leap mm :
  0 <= mm <= 11 ->
  0 <= JSDate.monthStart leap mm <= 335.
Proof.
  intros H.
  assert (mm = 0 \/ mm = 1 \/ mm = 2 \/ mm = 3 \/ mm = 4 \/ mm = 5 \/ mm = 6
          \/ mm = 7 \/ mm = 8 \/ mm = 9 \/ mm = 10 \/ mm = 11) as Hc by lia.
  destruct leap;
    repeat (destruct Hc as [-> | Hc]; [simpl; lia|]); subst; simpl; lia.
Qed.

Lemma MonthFromTime_day y mm dd :
  0 <= mm <= 11 -> 0 <= dd <= 27 ->
  JSDate.MonthFromTime
    ((JSDate.DayFromYear y + (JSDate.monthStart (JSDate.InLeapYear y) mm + dd))
     * JSDate.msPerDay) = mm.
Proof.
  intros Hmm Hdd. unfold JSDate.MonthFromTime.
  pose proof (monthStart_bounds (JSDate.InLeapYear y) mm Hmm) as Hb.
  rewrite YearFromTime_day by lia.
  unfold JSDate.Day. rewrite Z.div_mul by discriminate.
  replace (JSDate.DayFromYear y
           + (JSDate.monthStart (JSDate.InLeapYear y) mm + dd)
           - JSDate.DayFromYear y)
    with (JSDate.monthStart (JSDate.InLeapYear y) mm + dd) by lia.
  assert (mm = 0 \/ mm = 1 \/ mm = 2 \/ mm = 3 \/ mm = 4 \/ mm = 5 \/ mm = 6
          \/ mm = 7 \/ mm = 8 \/ mm = 9 \/ mm = 10 \/ mm = 11) as Hc by lia.
  destruct (JSDate.InLeapYear y);
    repeat (destruct Hc as [-> | Hc];
            [simpl JSDate.monthStart;
             repeat match goal with
             | |- context [?a <? ?b] =>
                 destruct (Z.ltb_spec a b); try lia
             end; reflexivity|]);
    subst; simpl JSDate.monthStart;
    repeat match goal with
    | |- context [?a <? ?b] => destruct (Z.ltb_spec a b); try lia
    end; reflexivity.
Qed.

Lemma make_in_range y mm day :
  100 <= y <= 270000 -> 0 <= mm <= 11 -> 1 <= day <= 28 ->
  JSDate.make y mm day
  = JSDate.Time
      ((JSDate.DayFromYear y
        + (JSDate.monthStart (JSDate.InLeapYear y) mm + (day - 1)))
       * JSDate.msPerDay).
Proof.
  intros Hy Hmm Hday. unfold JSDate.make, JSDate.MakeDay, JSDate.TimeClip.
  rewrite (proj2 (Z.leb_gt y 99)) by lia. rewrite andb_false_r.
  rewrite Z.div_small, Z.mod_small, Z.add_0_r by lia.
  pose proof (monthStart_bounds (JSDate.InLeapYear y) mm Hmm) as Hb.
  assert (Hd : -700000 <= JSDate.DayFromYear y <= 99000000).
  { unfold JSDate.DayFromYear. Z.to_euclidean_division_equations. lia. }
  rewrite (proj2 (Z.leb_le _ _)).
  - f_equal. lia.
  - unfold JSDate.msPerDay. lia.
Qed.

Lemma make_two_digit y mm day :
  0 <= y <= 99 -> JSDate.make y mm day = JSDate.make (1900 + y) mm day.
Proof.
  intros Hy. unfold JSDate.make.
  rewrite (proj2 (Z.leb_le 0 y)), (proj2 (Z.leb_le y 99)) by lia.
  rewrite (proj2 (Z.leb_gt (1900 + y) 99)) by lia.
  now rewrite andb_false_r.
Qed.

(** X20.  The label of a reconstructed date shows the partial date again.
    For a year from 1 to 270000, a month from 1 to 12 or none, and a day
    from 1 to 28 or none, the date exists and its label is the short name
    of that month, July without one, and the year, a year below 100 being
    read as a year of the twentieth century. *)
Theorem label_of_partial_date (pd : PositionDate.t) (y : Z) :
  PositionDate.year pd = Some y -> 1 <= y <= 270000 ->
  (forall m, PositionDate.month pd = Some m -> 0 <= m <= 12) ->
  (forall d, PositionDate.day pd = Some d -> 0 <= d <= 28) ->
  exists date,
    createDateFromPositionDate (Some pd) = Some date
    /\ JSDate.toLocaleDateString date
       = JSDate.monthShort (shownMonth pd - 1) ++ js" "
           ++ JSString.ofZ (if y <=? 99 then 1900 + y else y).
Proof.
  intros Hy Hrange Hm Hd. unfold createDateFromPositionDate, shownMonth.
  rewrite Hy. assert (truthyNum (Some y) = Some y) as -> by (destruct y; easy).
  eexists. split; [reflexivity|].
  set (mm := match truthyNum (PositionDate.month pd) with
             | Some m => m - 1
             | None => 6
             end).
  set (day := match truthyNum (PositionDate.day pd) with
              | Some d => d
              | None => 1
              end).
  assert (Hmm : 0 <= mm <= 11
                /\ mm = match PositionDate.month pd with
                        | Some m => if m =? 0 then 7 else m
                        | None => 7
                        end - 1).
  { unfold mm. destruct (PositionDate.month pd) as [m|]; [|simpl; lia].
    specialize (Hm m eq_refl). destruct m; simpl; lia. }
  destruct Hmm as [Hmm <-].
  assert (Hday : 1 <= day <= 28).
  { unfold day. destruct (PositionDate.day pd) as [d|]; [|simpl; lia].
    specialize (Hd d eq_refl). destruct d; simpl; lia. }
  assert (Hlabel : forall Y, 100 <= Y <= 270000 ->
            JSDate.toLocaleDateString (JSDate.make Y mm day)
            = JSDate.monthShort mm ++ js" " ++ JSString.ofZ Y).
  { intros Y HY. rewrite make_in_range by lia.
    unfold JSDate.toLocaleDateString.
    rewrite MonthFromTime_day by lia.
    pose proof (monthStart_bounds (JSDate.InLeapYear Y) mm Hmm) as Hb.
    rewrite YearFromTime_day by lia.
    now rewrite (proj2 (Z.ltb_lt 0 Y)) by lia. }
  destruct (y <=? 99) eqn:Hsmall.
  - apply Z.leb_le in Hsmall. rewrite make_two_digit by lia.
    apply Hlabel. lia.
  - apply Z.leb_gt in Hsmall. apply Hlabel. lia.
Qed.

(** An instance: [{ year: 20, month: 3 }] is shown as March 1920. *)
Lemma label_of_partial_date_witness :
  exists date,
    createDateFromPositionDate (Some (yearMonth 20 3)) = Some date
    /\ JSDate.toLocaleDateString date = js"Mar 1920".
Proof.
  apply (label_of_partial_date (yearMonth 20 3) 20);
    [reflexivity | lia | intros m [= <-]; lia | discriminate].
Defined.

(** ** The empty keyword *)

Lemma splitAux_empty s : forall cur inRun,
  [] ∈ JSString.splitAux cur inRun s
  <-> (cur = [] /\ inRun = false
       /\ exists c, head s = Some c /\ JSString.isWhiteSpace c = true)
      \/ (s = [] /\ cur = [])
      \/ (exists c, last s = Some c /\ JSString.isWhiteSpace c = true).
Proof.
  induction s as [|c s IH]; intros cur inRun; simpl.
  - rewrite list_elem_of_singleton. split.
    + intros H. right. left. split; [reflexivity|].
      destruct cur; [reflexivity|]. symmetry in H.
      apply (f_equal (@length _)) in H. rewrite length_rev in H. discriminate.
    + intros [(_ & _ & c & H & _) | [[_ ->] | (c & H & _)]];
        try discriminate. reflexivity.
  - assert (Hlast : forall P : N -> Prop,
              (exists x, last (c :: s) = Some x /\ P x)
              <-> (s = [] /\ P c) \/ (exists x, last s = Some x /\ P x)).
    { intros P. destruct s as [|c' s']; simpl.
      - split.
        + intros (x & [= <-] & H). now left.
        + intros [[_ H] | (x & H & _)]; [eauto | discriminate].
      - split.
        + intros (x & H & HP). right. eauto.
        + intros [[H _] | (x & H & HP)]; [discriminate | eauto]. }
    rewrite (Hlast (fun x => JSString.isWhiteSpace x = true)).
    destruct (JSString.isWhiteSpace c) eqn:Hc.
    + destruct inRun.
      * rewrite IH. split.
        -- intros [(_ & H & _) | [[-> _] | H]]; [discriminate | | tauto].
           right. right. now left.
        -- intros [(_ & H & _) | [[H _] | [[-> _] | H]]];
             try discriminate; [right; left; now split | tauto].
      * rewrite elem_of_cons, IH. split.
        -- intros [H | [(_ & H & _) | [[-> _] | H]]]; try discriminate.
           ++ left. split; [|split; [reflexivity | eauto]].
              destruct cur; [reflexivity|]. 
              apply (f_equal (@length _)) in H. rewrite length_rev in H.
              discriminate.
           ++ right. right. now left.
           ++ tauto.
        -- intros [(-> & _ & _) | [[H _] | [[-> _] | H]]];
             try discriminate; [now left | right; right; left; now split | tauto].
    + rewrite IH. split.
      * intros [(H & _) | [[_ H] | H]]; try discriminate. tauto.
      * intros [(_ & _ & x & [= <-] & H) | [[H _] | [[_ H] | H]]];
          try discriminate; try congruence. tauto.
Qed.

Lemma split_ws_empty text :
  text <> [] -> ([] ∈ JSString.split_ws text <-> ragged text).
Proof.
  intros Hne. unfold JSString.split_ws, ragged. rewrite splitAux_empty.
  split.
  - intros [(_ & _ & H) | [[H _] | H]]; [now left | contradiction | now right].
  - intros [H | H]; [left; now repeat split | now right; right].
Qed.

(** X21.  The keyword set holds the empty string exactly when one of the
    sources of the keywords starts or ends with white space. *)
Theorem empty_keyword_iff_ragged_source (clock : Clock) (profile : Profile.t) :
  [] ∈ keywordsOf clock profile
  <-> exists text,
        Some text ∈ keywordSources profile /\ text <> [] /\ ragged text.
Proof.
  rewrite keywordsOf_elem. unfold keywordTokens.
  rewrite list_elem_of_In, in_concat. split.
  - intros (toks & Htoks & Hin). apply in_map_iff in Htoks as (v & <- & Hv).
    unfold tokensOf in Hin. destruct v as [[|c s]|]; try now destruct Hin.
    exists (c :: s). split; [now apply list_elem_of_In|].
    split; [discriminate|]. apply split_ws_empty; [discriminate|].
    now apply list_elem_of_In.
  - intros (text & Hsrc & Hne & Hr).
    exists (tokensOf (Some text)). split.
    + apply in_map_iff. exists (Some text). split; [reflexivity|].
      now apply list_elem_of_In.
    + destruct text as [|c s]; [contradiction|]. simpl.
      apply list_elem_of_In. now apply split_ws_empty.
Qed.

(** ** Durations and the seniority *)

(** X22.  A position that counts for the seniority at [now] has a job
    entry, built at the same [now], whose duration is an integer of at
    least 7 months. *)
Theorem counted_positions_show_seven_months (now : Z) (pos : Position.t)
    (s : Z) :
  qualifyingStart now pos = Some s ->
  exists k,
    JobEntry.duration (jobEntryOf (JSDate.Time now) pos) = JSMath.ofZ k
    /\ 7 <= k.
Proof.
  rewrite qualifyingStart_endDate. unfold jobEntryOf.
  destruct (isExcludedPosition pos); [discriminate|].
  destruct (createDateFromPositionDate (Position.start pos)) as [[|s0]|];
    try discriminate.
  destruct (endDateOf pos (JSDate.Time now)) as [|e]; [discriminate|].
  destruct (sevenMonths <=? e - s0) eqn:H7; [|discriminate].
  intros _. apply Z.leb_le in H7. unfold sevenMonths, JSDate.msPerDay in H7.
  cbn [JobEntry.duration]. rewrite duration_round.
  rewrite (proj2 (Z.leb_gt e s0)) by lia.
  eexists. split; [reflexivity|].
  apply Z.div_le_lower_bound; lia.
Qed.

(** An instance: the position held since July 2020, in November 2026. *)
Lemma counted_positions_show_seven_months_witness :
  exists k,
    JobEntry.duration (jobEntryOf (JSDate.Time nov2026) since2020)
    = JSMath.ofZ k
    /\ 7 <= k.
Proof.
  apply (counted_positions_show_seven_months nov2026 since2020 1593561600000).
  reflexivity.
Defined.
